(** * Firefly: storage mapping, message identity and the generic query service

    A shallow embedding of
    - [firefly/infrastructure/repository/rdb_storage_interface.py]
      (column and index derivation, the public CRUD and DDL operations),
    - [firefly/domain/entity/messaging/event.py] ([Event.__eq__]),
    - [firefly/domain/service/core/query_service.py]
      ([QueryService.__call__]),
    together with the properties the specification states about them. *)

From Stdlib Require Import ZArith Ascii String List Lia.
From stdpp Require Import base gmap strings list.

Local Open Scope Z_scope.

(** ** Python results: a value or a raised exception *)

Module Py.

Inductive Exception :=
| StopIteration
| TypeError
| KeyError
| MissingArgument (name : string)
| NoResultFound
| MultipleResultsFound
| DeserializationError.

Inductive Result (A : Type) :=
| Ok (a : A)
| Raise (e : Exception).
Arguments Ok {A} a.
Arguments Raise {A} e.

Global Instance result_ret : MRet Result := λ A a, Ok a.

Global Instance result_bind : MBind Result := λ A B k r,
  match r with
  | Ok a => k a
  | Raise e => Raise e
  end.

(** [list.insert(i, x)]: insert before position [i]; past the end it
    appends. *)
Definition list_insert_at {A} (i : nat) (x : A) (l : list A) : list A :=
  take i l ++ x :: drop i l.

End Py.

(** ** Entity field metadata, columns and indexes *)

Module Schema.
Import Py.

(** Values found in a dataclass field's [metadata] mapping. *)
Inductive MetaVal :=
| MNone
| MBool (b : bool)
| MInt (z : Z)
| MStr (s : string).

Global Instance MetaVal_eq_dec : EqDecision MetaVal.
Proof. solve_decision. Defined.

(** A dataclass field: its name, its resolved type hint (by qualified
    name) and its metadata mapping. *)
Record Field := mkField {
  f_name : string;
  f_type : string;
  f_metadata : gmap string MetaVal
}.

(** An entity type as the storage interface sees it: [get_fqn()] and
    [dataclasses.fields()]. *)
Record EntityType := mkEntityType {
  fqn : string;
  fields : list Field
}.

(** The [type] of a column is either the field's annotation or, for the
    document column, the literal ['str']. *)
Inductive ColumnType :=
| Annotated (hint : string)
| Literal (s : string).

Record Column := mkColumn {
  c_name : string;
  c_type : ColumnType;
  c_length : MetaVal;
  c_is_id : MetaVal
}.

(** Modelled from the spec: the [Column] class lives in [rdb_repository],
    which is not part of the sources; a Column describes
    {name, semantic type, optional length, is-identifier flag}, so a
    column built from a name and a type alone has no length and is not an
    identifier. *)
Definition document_column : Column :=
  mkColumn "document" (Literal "str") MNone (MBool false).

(** The class-level switches of [RdbStorageInterface]. *)
Record Settings := mkSettings {
  map_indexes : bool;
  map_all : bool
}.

Definition has_key (k : string) (f : Field) : bool :=
  bool_decide (is_Some (f_metadata f !! k)).

(** [f.metadata.get(k, d)] *)
Definition metadata_get (k : string) (d : MetaVal) (f : Field) : MetaVal :=
  default d (f_metadata f !! k).

Definition is_private (f : Field) : bool := String.prefix "_" (f_name f).

Definition column_of (f : Field) : Column :=
  mkColumn (f_name f) (Annotated (f_type f))
           (metadata_get "length" MNone f)
           (metadata_get "id" (MBool false) f).

(** One iteration of the loop of [get_entity_columns] on the
    accumulator [ret]. *)
Definition columns_step (self : Settings) (ret : list Column) (f : Field)
  : list Column :=
  if is_private f then ret
  else
    let c := column_of f in
    if map_all self then ret ++ [c]
    else if map_indexes self && has_key "index" f then ret ++ [c]
    else if has_key "id" f then ret ++ [c]
    else ret.

Definition get_entity_columns (self : Settings) (entity : EntityType)
  : list Column :=
  let ret := fold_left (columns_step self) (fields entity) [] in
  if negb (map_all self) then list_insert_at 1 document_column ret
  else ret.

(** The fields that get a column of their own outside map-all mode. *)
Definition mapped (self : Settings) (f : Field) : bool :=
  negb (is_private f) &&
  (map_all self || (map_indexes self && has_key "index" f) || has_key "id" f).

Definition kept (self : Settings) (fs : list Field) : list Field :=
  filter (λ f, Is_true (mapped self f)) fs.

(** *** Index derivation *)

Record Index := mkIndex {
  i_name : option string;
  i_table : string;
  i_columns : list string;
  i_unique : bool
}.

Fixpoint replace_dots (s : string) : string :=
  match s with
  | EmptyString => EmptyString
  | String c s' =>
      String (if Ascii.eqb c "."%char then "_"%char else c) (replace_dots s')
  end.

(** [field_.metadata.get('unique', False) is True] *)
Definition unique_is_true (f : Field) : bool :=
  bool_decide (metadata_get "unique" (MBool false) f = MBool true).

Section Indexes.
(** The parts of the derivation that live outside the sources:
    [inflection.tableize], and, of the [Index] class of
    [rdb_repository], the name an Index built without one carries and
    its truth value. *)
Variable tableize : string → string.
Variable default_name : string → list string → bool → option string.
Variable truthy : Index → bool.

Definition _fqtn (entity : EntityType) : string := tableize (fqn entity).

(** [Index(table=table, columns=[field_.name], unique=...)] *)
Definition new_index (table : string) (f : Field) : Index :=
  let cols := [f_name f] in
  let u := unique_is_true f in
  mkIndex (default_name table cols u) table cols u.

(** The [else] branch on a found [idx]: the object inside [ret] is
    updated in place. *)
Definition merge_into (idx : Index) (f : Field) : Index :=
  let cols := i_columns idx ++ [f_name f] in
  if unique_is_true f && negb (i_unique idx)
  then mkIndex (i_name idx) (i_table idx) cols true
  else mkIndex (i_name idx) (i_table idx) cols (i_unique idx).

(** The loop of [get_entity_indexes]; [next(filter(...))] has no
    default, so an exhausted filter raises [StopIteration]. *)
Fixpoint indexes_loop (table : string) (fs : list Field) (ret : list Index)
  : Result (list Index) :=
  match fs with
  | [] => Ok ret
  | field_ :: fs' =>
      match f_metadata field_ !! "index" with
      | None => indexes_loop table fs' ret
      | Some (MBool true) =>
          indexes_loop table fs' (ret ++ [new_index table field_])
      | Some (MStr name) =>
          match list_find (λ i, i_name i = Some name) ret with
          | None => Raise StopIteration
          | Some (pos, idx) =>
              if negb (truthy idx)
              then indexes_loop table fs' (ret ++ [new_index table field_])
              else indexes_loop table fs' (<[pos := merge_into idx field_]> ret)
          end
      | Some _ => indexes_loop table fs' ret
      end
  end.

Definition get_entity_indexes (entity : EntityType) : Result (list Index) :=
  indexes_loop (replace_dots (_fqtn entity)) (fields entity) [].
End Indexes.

End Schema.

(** ** The public operations of [RdbStorageInterface] *)

Module Storage.
Import Py Schema.

(** Attribute values of an entity instance; [VTime] is a [datetime]. *)
Inductive Value :=
| VNone
| VBool (b : bool)
| VInt (z : Z)
| VStr (s : string)
| VTime (t : Z).

(** An entity instance: its class and its attributes. *)
Record Entity := mkEntity {
  e_class : EntityType;
  e_attrs : gmap string Value
}.

Definition hasattr (e : Entity) (k : string) : bool :=
  bool_decide (is_Some (e_attrs e !! k)).

Definition setattr (e : Entity) (k : string) (v : Value) : Entity :=
  mkEntity (e_class e) (<[k := v]> (e_attrs e)).

(** The extra template parameters the DDL operations pass to
    [_generate_query]. *)
Inductive Extra :=
| NoExtra
| ExtraColumn (column : Column)
| ExtraIndex (index : Index)
| ExtraEntity (entity : EntityType)
| ExtraContext (context_name : string).

Section Interface.
(** [Criteria], [Sort], [Params]: criteria trees, sort specifications
    and bound SQL parameters, opaque to the interface. [Answer] is what
    a backend primitive returns. *)
Context {Criteria Sort Params Answer : Type}.

(** The abstract primitives a backend implements, as the calls it
    receives. *)
Inductive Call :=
| CEnsureConnected
| CDisconnect
| CAdd (entity : Entity)
| CAll (entity_type : EntityType) (criteria : option Criteria)
       (limit offset : option Z) (sort : option Sort) (raw count : bool)
| CFind (uuid : string) (entity_type : EntityType)
| CRemove (entity : Entity)
| CUpdate (entity : Entity)
| CExecute (sql : string) (params : option Params)
| CGetTableColumns (entity : EntityType)
| CGetTableIndexes (entity : EntityType).

(** The world an operation runs in: the clock [datetime.now()] reads
    and the calls the backend has received so far, oldest first. *)
Record World := mkWorld {
  clock : Z;
  trace : list Call
}.

(** The world after the backend has received the calls [cs]. *)
Definition logged (w : World) (cs : list Call) : World :=
  mkWorld (clock w) (trace w ++ cs).

Definition M (A : Type) : Type := World → A * World.

Definition ret {A} (a : A) : M A := λ w, (a, w).
Definition bind {A B} (m : M A) (k : A → M B) : M B :=
  λ w, let '(a, w') := m w in k a w'.
Definition seq {A B} (m : M A) (k : M B) : M B := bind m (λ _, k).

(** What the backend answers to a call, and the SQL text and bound
    parameters [_generate_query] renders from a template; neither
    touches the connection. *)
Variable respond : Call → Answer.
Variable _generate_query : EntityType → string → Extra → string * option Params.
Variable get_class_context : EntityType → string.
Variable _sql_prefix : string.

Definition call (c : Call) : M Answer :=
  λ w, (respond c, mkWorld (clock w) (trace w ++ [c])).

Definition datetime_now : M Z := λ w, (clock w, w).

Definition _ensure_connected : M unit := seq (call CEnsureConnected) (ret tt).
Definition _add (entity : Entity) : M unit := seq (call (CAdd entity)) (ret tt).
Definition _remove (entity : Entity) : M unit :=
  seq (call (CRemove entity)) (ret tt).
Definition _update (entity : Entity) : M unit :=
  seq (call (CUpdate entity)) (ret tt).
Definition _execute (sql : string) (params : option Params) : M unit :=
  seq (call (CExecute sql params)) (ret tt).

Definition _check_prerequisites (entity : EntityType) : M unit :=
  _ensure_connected.

Definition disconnect : M unit := seq (call CDisconnect) (ret tt).

Definition add (entity : Entity) : M unit :=
  seq (_check_prerequisites (e_class entity)) (_add entity).

Definition all (entity_type : EntityType) (criteria : option Criteria)
    (limit offset : option Z) (sort : option Sort) (raw count : bool)
  : M Answer :=
  seq (_check_prerequisites entity_type)
      (call (CAll entity_type criteria limit offset sort raw count)).

Definition find (uuid : string) (entity_type : EntityType) : M Answer :=
  seq (_check_prerequisites entity_type) (call (CFind uuid entity_type)).

(** [remove] and [update] assign to an attribute of the entity they
    are given; the entity as they leave it is their result. *)
Definition remove (entity : Entity) (force : bool) : M Entity :=
  seq (_check_prerequisites (e_class entity))
      (if hasattr entity "deleted_on" && negb force
       then bind datetime_now (λ t,
              let entity := setattr entity "deleted_on" (VTime t) in
              seq (_update entity) (ret entity))
       else seq (_remove entity) (ret entity)).

Definition update (entity : Entity) : M Entity :=
  seq (_check_prerequisites (e_class entity))
      (bind (if hasattr entity "updated_on"
             then bind datetime_now (λ t,
                    ret (setattr entity "updated_on" (VTime t)))
             else ret entity)
            (λ entity, seq (_update entity) (ret entity))).

Definition execute (sql : string) (params : option Params) : M unit :=
  _execute sql params.

Definition template (name : string) : string :=
  (_sql_prefix +:+ "/" +:+ name)%string.

Definition run_template (entity : EntityType) (name : string) (x : Extra)
  : M unit :=
  let '(sql, params) := _generate_query entity (template name) x in
  execute sql params.

Definition clear (entity : EntityType) : M unit :=
  run_template entity "truncate_table.sql" NoExtra.
Definition destroy (entity : EntityType) : M unit :=
  run_template entity "drop_table.sql" NoExtra.
Definition add_column (entity : EntityType) (column : Column) : M unit :=
  run_template entity "add_column.sql" (ExtraColumn column).
Definition drop_column (entity : EntityType) (column : Column) : M unit :=
  run_template entity "drop_column.sql" (ExtraColumn column).
Definition create_index (entity : EntityType) (index : Index) : M unit :=
  run_template entity "add_index.sql" (ExtraIndex index).
Definition drop_index (entity : EntityType) (index : Index) : M unit :=
  run_template entity "drop_index.sql" (ExtraIndex index).
Definition create_table (entity_type : EntityType) : M unit :=
  run_template entity_type "create_table.sql" (ExtraEntity entity_type).
Definition create_database (entity_type : EntityType) : M unit :=
  run_template entity_type "create_database.sql"
               (ExtraContext (get_class_context entity_type)).
Definition get_table_columns (entity : EntityType) : M Answer :=
  call (CGetTableColumns entity).
Definition get_table_indexes (entity : EntityType) : M Answer :=
  call (CGetTableIndexes entity).

(** The calls an operation adds to the trace when started with an
    empty one. *)
Definition calls_of {A} (m : M A) (now : Z) : list Call :=
  trace (m (mkWorld now [])).2.

(** Connection discipline: the first call an operation makes, if any,
    is [_ensure_connected]. *)
Definition connects_first (cs : list Call) : bool :=
  match cs with
  | [] => true
  | CEnsureConnected :: _ => true
  | _ => false
  end.
End Interface.

Arguments Call : clear implicits.
Arguments World : clear implicits.

End Storage.

(** ** [Event]: string form and equality *)

Module Messaging.
Import Py.

(** A class, by the module it is defined in and its name.
    [dataclass_eq] tells which [__eq__] its instances get: [Event]
    defines [__eq__] in its own body, so [@dataclass] leaves it alone
    there; a subclass that is decorated with [@dataclass] again (as
    [ContainerRegistered] and [ContextsLoaded] are), or that inherits
    from such a class, defines none in its body and gets a generated
    [__eq__], which comes before [Event.__eq__] in the method
    resolution order. *)
Record Class := mkClass {
  __module__ : string;
  __name__ : string;
  dataclass_eq : bool
}.

Global Instance Class_eq_dec : EqDecision Class.
Proof. solve_decision. Defined.

Record Event := mkEvent {
  __class__ : Class;
  source_context : option string
}.

(** The values an event is compared with here: [None], integers,
    strings, classes, tuples, and any other object that is not itself
    an instance of an event class. Of such an object two things
    matter. [instancecheck] is what an instance check against it
    answers for an event when its type defines [__instancecheck__] (a
    union [A | B], a typing alias, an object with a method of that
    name), and [None] when its type defines none, so that [isinstance]
    rejects it. [reflected_eq] is what its own [__eq__] answers when
    the comparison is handed to it, [None] standing for
    [NotImplemented]. *)
#[warnings="-register-all"] Inductive PyObj :=
| ONone
| OInt (z : Z)
| OStr (s : string)
| OType (T : Class)
| OTuple (items : list PyObj)
| OObject (instancecheck : option (Event → Result bool))
          (reflected_eq : option (Event → Result bool)).

(** [s.split('.')[0]] *)
Fixpoint first_component (s : string) : string :=
  match s with
  | EmptyString => EmptyString
  | String c s' =>
      if Ascii.eqb c "."%char then EmptyString
      else String c (first_component s')
  end.

Definition __post_init__ (self : Event) : Event :=
  mkEvent (__class__ self)
          (Some (first_component (__module__ (__class__ self)))).

Definition __str__ (self : Event) : string :=
  match source_context self with
  | Some ctx => (ctx +:+ "." +:+ __name__ (__class__ self))%string
  | None => __name__ (__class__ self)
  end.

Definition is_str (o : PyObj) : bool :=
  match o with OStr _ => true | _ => false end.

(** [other == s] for a string [s] *)
Definition equals_str (o : PyObj) (s : string) : bool :=
  match o with OStr t => String.eqb t s | _ => false end.

Definition is_type (o : PyObj) : bool :=
  match o with OType _ => true | _ => false end.

Definition is_tuple (o : PyObj) : bool :=
  match o with OTuple _ => true | _ => false end.

(** The values an instance check rejects with [TypeError]: neither a
    class nor a tuple, and of a type that defines no
    [__instancecheck__]. *)
Definition rejected_by_isinstance (o : PyObj) : bool :=
  match o with
  | ONone | OInt _ | OStr _ | OObject None _ => true
  | _ => false
  end.

Section Equality.
(** [type(T).__instancecheck__(T, e)] for a class [T] and an instance
    [e] of the class given first: the subclass test, which for an
    abstract base class also goes through its registrations and its
    [__subclasshook__] and can raise. *)
Variable instance_check : Class → Class → Result bool.

(** The built-in [isinstance(self, other)]. The very class of [self]
    answers [True] at once and any other class through its metaclass; a
    tuple is searched from left to right (tuples may nest) up to the
    first [True] or the first exception; an object whose type defines
    [__instancecheck__] answers for itself; anything else raises
    [TypeError]. *)
Fixpoint isinstance (self : Event) (other : PyObj) {struct other}
  : Result bool :=
  match other with
  | OType T =>
      if bool_decide (T = __class__ self) then Ok true
      else instance_check (__class__ self) T
  | OTuple items =>
      (fix search (l : list PyObj) : Result bool :=
         match l with
         | [] => Ok false
         | x :: l' =>
             match isinstance self x with
             | Ok true => Ok true
             | Ok false => search l'
             | Raise e => Raise e
             end
         end) items
  | OObject (Some check) _ => check self
  | _ => Raise TypeError
  end.

(** [Event.__eq__]: only [TypeError] is caught. *)
Definition __eq__ (self : Event) (other : PyObj) : Result bool :=
  if is_str other && equals_str other (__str__ self) then Ok true
  else
    match isinstance self other with
    | Raise TypeError => Ok false
    | r => r
    end.

(** [self == other]. An event whose class has a generated [__eq__]
    answers [NotImplemented] to every value that is not of its very
    class, so to every value here; the comparison is then handed to
    [other], and when that does not answer either, identity decides:
    [False]. Every other event answers with [Event.__eq__]. *)
Definition eq_operator (self : Event) (other : PyObj) : Result bool :=
  if dataclass_eq (__class__ self) then
    match other with
    | OObject _ (Some reflected) => reflected self
    | _ => Ok false
    end
  else __eq__ self other.
End Equality.

End Messaging.

(** ** The generic query service *)

Module Query.
Import Py.

(** [l[start:stop]] on a Python sequence: negative bounds count from the
    end, and bounds are clamped to the sequence. *)
Definition py_slice {A} (l : list A) (start stop : Z) : list A :=
  let n := Z.of_nat (length l) in
  let clamp i := if i <? 0 then Z.max (i + n) 0 else Z.min i n in
  let a := clamp start in
  let b := clamp stop in
  take (Z.to_nat (b - a)) (drop (Z.to_nat a) l).

Section Service.
(** Entities and their identifier values; criteria trees, their
    nested-mapping form and sort specifications. *)
Context {Entity IdVal Dict BinaryOp SortSpec : Type}.
Context `{EqDecision IdVal}.

Variable id_name : string.
Variable id_value : Entity → IdVal.
(** [Serializer.deserialize] and [BinaryOp.from_dict]; both may raise. *)
Variable deserialize : string → Result Dict.
Variable from_dict : Dict → Result BinaryOp.
(** Whether an entity satisfies a criteria tree, and the storage's
    stable sort under a sort specification. *)
Variable satisfies : BinaryOp → Entity → bool.
Variable sorted : SortSpec → list Entity → list Entity.

(** Modelled from the spec: the [Repository] class is not part of the
    sources. A repository is a lazy collection evaluated against
    storage: [filter], [sort] and slicing record criteria, sort
    specification and bounds, and iterating executes the query, the
    sort being delegated to storage and the bounded fetch taken from
    its result. *)
Record Repository := mkRepository {
  rows : list Entity;
  r_criteria : option BinaryOp;
  r_sort : option SortSpec;
  r_bounds : option (Z * Z)
}.

(** Modelled from the spec: [registry(type)], the repository of all
    stored entities of the type. *)
Definition registry (store : list Entity) : Repository :=
  mkRepository store None None None.

(** Modelled from the spec: [filter(criteria)]. *)
Definition r_filter (r : Repository) (c : BinaryOp) : Repository :=
  mkRepository (rows r) (Some c) (r_sort r) (r_bounds r).

(** Modelled from the spec: [sort(cb)]; the callback yields the sort
    specification. *)
Definition r_sorted (r : Repository) (cb : unit → SortSpec) : Repository :=
  mkRepository (rows r) (r_criteria r) (Some (cb tt)) (r_bounds r).

(** Modelled from the spec: [repository[start:stop]]. *)
Definition r_getitem (r : Repository) (start stop : Z) : Repository :=
  mkRepository (rows r) (r_criteria r) (r_sort r) (Some (start, stop)).

Definition matching (c : option BinaryOp) (l : list Entity) : list Entity :=
  match c with
  | Some c => List.filter (satisfies c) l
  | None => l
  end.

Definition ordered (s : option SortSpec) (l : list Entity) : list Entity :=
  match s with
  | Some s => sorted s l
  | None => l
  end.

(** Modelled from the spec: [list(repository)], the query executed:
    the rows satisfying the criteria, sorted, then the bounded
    fetch. *)
Definition r_list (r : Repository) : list Entity :=
  let l := ordered (r_sort r) (matching (r_criteria r) (rows r)) in
  match r_bounds r with
  | Some (start, stop) => py_slice l start stop
  | None => l
  end.

(** Modelled from the spec: [len(repository)], the count query. *)
Definition r_len (r : Repository) : Z := Z.of_nat (length (r_list r)).

(** Modelled from the spec: [find(id)] fails with [NoResultFound] if no
    row matches and with [MultipleResultsFound] if more than one
    does. *)
Definition r_find (r : Repository) (v : IdVal) : Result Entity :=
  match List.filter (λ e, bool_decide (id_value e = v)) (rows r) with
  | [] => Raise NoResultFound
  | [e] => Ok e
  | _ => Raise MultipleResultsFound
  end.

(** Modelled from the spec: the [Envelope] class is not part of the
    sources; it carries {items, offset, limit, total}, and
    [set_range(offset, limit, total)] fills in the range. *)
Record Envelope := mkEnvelope {
  items : list Entity;
  env_offset : option Z;
  env_limit : option Z;
  env_total : option Z
}.

Definition wrap (body : list Entity) : Envelope :=
  mkEnvelope body None None None.

Definition set_range (e : Envelope) (offset limit total : Z) : Envelope :=
  mkEnvelope (items e) (Some offset) (Some limit) (Some total).

(** The keyword arguments the service looks at: the entity's
    identifier, ['limit'] and ['offset'] (a supplied value may be
    [None]), ['criteria'] (a serialized string or a mapping) and
    ['sort']. [None] at the outer level means the key is absent. *)
Inductive CriteriaArg :=
| Serialized (s : string)
| Mapping (d : Dict).

Record Kwargs := mkKwargs {
  kw_id : option IdVal;
  kw_limit : option (option Z);
  kw_offset : option (option Z);
  kw_criteria : option CriteriaArg;
  kw_sort : option SortSpec
}.

(** What a call returns: the entity found, a plain list, or an
    Envelope. *)
Inductive Response :=
| Found (e : Entity)
| Sequence (l : list Entity)
| Paginated (env : Envelope).

(** Lines 46-51: the criteria tree the call filters by, if any. *)
Definition criteria_of (kwargs : Kwargs) : Result (option BinaryOp) :=
  match kw_criteria kwargs with
  | None => Ok None
  | Some criteria =>
      criteria ← match criteria with
                 | Serialized s => deserialize s
                 | Mapping d => Ok d
                 end;
      criteria ← from_dict criteria;
      Ok (Some criteria)
  end.

(** Lines 60-61: [entities.sort(lambda: kwargs.get('sort'))] when
    ['sort'] is supplied. *)
Definition apply_sort (kwargs : Kwargs) (entities : Repository)
  : Repository :=
  match kw_sort kwargs with
  | Some s => r_sorted entities (λ _, s)
  | None => entities
  end.

Definition __call__ (store : list Entity) (kwargs : Kwargs)
  : Result Response :=
  match kw_id kwargs with
  | Some v =>
      match r_find (registry store) v with
      | Ok e => Ok (Found e)
      | Raise KeyError => Raise (MissingArgument id_name)
      | Raise e => Raise e
      end
  | None =>
      let '(limit, offset) :=
        match kw_limit kwargs, kw_offset kwargs with
        | Some l, Some o => (l, o)
        | _, _ => (None, None)
        end in
      let entities := registry store in
      criteria ← criteria_of kwargs;
      let entities :=
        match criteria with
        | Some criteria => r_filter (registry store) criteria
        | None => entities
        end in
      match limit, offset with
      | Some limit, Some offset =>
          let count := r_len entities in
          let entities := r_getitem entities offset (offset + limit) in
          let entities := apply_sort kwargs entities in
          Ok (Paginated (set_range (wrap (r_list entities))
                                   offset limit (count - 1)))
      | _, _ =>
          let entities := apply_sort kwargs entities in
          Ok (Sequence (r_list entities))
      end
  end.
End Service.

Arguments Repository : clear implicits.
Arguments Envelope : clear implicits.
Arguments CriteriaArg : clear implicits.
Arguments Kwargs : clear implicits.
Arguments Response : clear implicits.

End Query.

(** ** Sample entity types *)

Module Samples.
Import Schema.

Definition id_field : Field :=
  mkField "id" "str" {[ "id" := MBool true ]}.

Definition name_field : Field :=
  mkField "name" "str" {[ "index" := MStr "idx_name_email" ]}.

Definition email_field : Field :=
  mkField "email" "str"
          (<[ "unique" := MBool true ]> {[ "index" := MStr "idx_name_email" ]}).

Definition private_id_field : Field :=
  mkField "_id" "str" {[ "id" := MBool true ]}.

Definition user : EntityType :=
  mkEntityType "iam.User" [id_field; name_field; email_field].

Definition contact : EntityType :=
  mkEntityType "iam.Contact" [name_field; email_field].

Definition token : EntityType :=
  mkEntityType "iam.Token" [private_id_field].

(** A stored user that supports soft deletion and change tracking, and
    one that supports neither. *)
Definition tracked_user : Storage.Entity :=
  Storage.mkEntity user
    (<[ "deleted_on" := Storage.VNone ]>
       (<[ "updated_on" := Storage.VNone ]> {[ "name" := Storage.VStr "foo" ]})).

Definition plain_user : Storage.Entity :=
  Storage.mkEntity user {[ "name" := Storage.VStr "bar" ]}.

(** An event class that takes [__eq__] from [Event], an event of it as
    its constructor leaves it, and a program in which no class has a
    proper subclass. *)
Definition user_created : Messaging.Class :=
  Messaging.mkClass "iam.domain.event.user_created" "UserCreated" false.

Definition user_created_event : Messaging.Event :=
  Messaging.__post_init__ (Messaging.mkEvent user_created None).

Definition flat_hierarchy (c T : Messaging.Class) : Py.Result bool :=
  Py.Ok (bool_decide (c = T)).

(** [ContextsLoaded], decorated with [@dataclass], and an event of it. *)
Definition contexts_loaded : Messaging.Class :=
  Messaging.mkClass "firefly.domain.event.contexts_loaded" "ContextsLoaded"
                    true.


(** The union [UserCreated | int]: its type defines [__instancecheck__],
    which asks each member class in turn. *)
Definition user_created_or_int : Messaging.PyObj :=
  Messaging.OObject
    (Some (λ e, Messaging.isinstance flat_hierarchy e
                  (Messaging.OTuple
                     [Messaging.OType user_created;
                      Messaging.OType (Messaging.mkClass "builtins" "int" false)])))
    None.

(** An object whose [__instancecheck__] raises. *)
Definition failing_checker : Messaging.PyObj :=
  Messaging.OObject (Some (λ _, Py.Raise Py.KeyError)) None.

(** A store of three users, identified and ordered by number; criteria
    select the users below a bound, and a sort specification says
    whether the order is descending. *)
Fixpoint insert_by (le : Z → Z → bool) (x : Z) (l : list Z) : list Z :=
  match l with
  | [] => [x]
  | y :: l' => if le x y then x :: l else y :: insert_by le x l'
  end.

Definition sort_users (descending : bool) (l : list Z) : list Z :=
  foldr (insert_by (if descending then Z.geb else Z.leb)) [] l.

Definition users : list Z := [3; 1; 2].

Definition query_users
  : list Z → Query.Kwargs Z Z bool → Py.Result (Query.Response Z) :=
  Query.__call__ (Dict:=Z) "id" (λ e, e) (λ _, Py.Raise Py.DeserializationError)
                 (λ d, Py.Ok d) (λ bound e, e <? bound) sort_users.

Definition first_page : Query.Kwargs Z Z bool :=
  Query.mkKwargs None (Some (Some 1)) (Some (Some 0)) None None.

Definition second_page_descending : Query.Kwargs Z Z bool :=
  Query.mkKwargs None (Some (Some 2)) (Some (Some 1)) None (Some true).

Definition limit_only : Query.Kwargs Z Z bool :=
  Query.mkKwargs None (Some (Some 1)) None (Some (Query.Mapping 3)) None.

Definition document_only : Settings := mkSettings false false.
Definition with_indexes : Settings := mkSettings true false.

End Samples.

(** ** Column selection and the shape of index metadata *)

Module Selection.
Import Py Schema.

(** [_select_list]: the columns a read selects. *)
Definition _select_list (self : Settings) (entity : EntityType) : list string :=
  if map_all self then c_name <$> get_entity_columns self entity
  else ["document"].

(** [field_.metadata['index'] is True] *)
Definition index_true (f : Field) : bool :=
  bool_decide (f_metadata f !! "index" = Some (MBool true)).

(** [isinstance(field_.metadata['index'], str)] *)
Definition index_named (f : Field) : bool :=
  match f_metadata f !! "index" with
  | Some (MStr _) => true
  | _ => false
  end.

(** The characters of a string, to speak of the ones it has. *)
Definition chars (s : string) : list ascii := list_ascii_of_string s.

Definition dot : ascii := "."%char.

(** What holds of an Index derived for the table [table] from the
    fields [fs]. *)
Definition well_derived (table : string) (fs : list Field) (idx : Index)
  : Prop :=
  (i_table idx = table)
  ∧ (dot ∉ chars (i_table idx))
  ∧ (i_columns idx ≠ [])
  ∧ (∀ c, c ∈ i_columns idx →
       ∃ f, f ∈ fs ∧ f_name f = c ∧ has_key "index" f = true)
  ∧ (i_unique idx = true →
       ∃ f, f ∈ fs ∧ f_name f ∈ i_columns idx ∧ unique_is_true f = true).

(** An account: an identifier, two single-column indexes (one unique)
    and a private field. *)
Definition account_id : Field :=
  mkField "id" "str" {[ "id" := MBool true ]}.
Definition account_email : Field :=
  mkField "email" "str"
          (<[ "unique" := MBool true ]> {[ "index" := MBool true ]}).
Definition account_name : Field :=
  mkField "name" "str" {[ "index" := MBool true ]}.
Definition account_secret : Field :=
  mkField "_secret" "str" ∅.
Definition account : EntityType :=
  mkEntityType "iam.Account"
               [account_id; account_email; account_name; account_secret].

End Selection.

(** ** Template paths and SQL text in [_generate_query] *)

Module Templates.
Import Py.

(** [s.split(sep)] for a one-character separator: the pieces between
    the separators, at least one. *)
Fixpoint split_on (sep : ascii) (s : string) : list string :=
  match s with
  | EmptyString => [EmptyString]
  | String c s' =>
      if Ascii.eqb c sep then EmptyString :: split_on sep s'
      else match split_on sep s' with
           | w :: ws => String c w :: ws
           | [] => [String c EmptyString]
           end
  end.

(** [sep.join(l)] *)
Fixpoint py_join (sep : string) (l : list string) : string :=
  match l with
  | [] => EmptyString
  | [w] => w
  | w :: ws => (w +:+ sep +:+ py_join sep ws)%string
  end.

(** The list handed to [select_template]: the template itself, then
    ['sql/'] and the second piece of its path. [None] stands for the
    [IndexError] of [template.split('/')[1]]. *)
Definition template_candidates (template : string) : option (list string) :=
  match split_on "/" template with
  | _ :: second :: _ => Some [template; py_join "/" ["sql"; second]]
  | _ => None
  end.

Section Whitespace.
(** Which characters [str.split()] takes for whitespace. *)
Variable is_space : ascii → bool.

(** [s.split()]: the maximal runs of characters that are not
    whitespace. *)
Fixpoint py_split (s : string) : list string :=
  match s with
  | EmptyString => []
  | String c s' =>
      if is_space c then py_split s'
      else match s' with
           | EmptyString => [String c EmptyString]
           | String c' _ =>
               if is_space c' then String c EmptyString :: py_split s'
               else match py_split s' with
                    | w :: ws => String c w :: ws
                    | [] => [String c EmptyString]
                    end
           end
  end.

(** Line 230: [" ".join(sql.split())]. *)
Definition normalize_sql (sql : string) : string :=
  py_join " " (py_split sql).
End Whitespace.

(** A word: a non-empty string without whitespace. *)
Definition is_word (is_space : ascii → bool) (w : string) : Prop :=
  w ≠ EmptyString ∧ Forall (λ c, is_space c = false) (list_ascii_of_string w).

(** Space, tab, line feed and carriage return. *)
Definition ascii_space (c : ascii) : bool :=
  (Ascii.eqb c " " || Ascii.eqb c "009" || Ascii.eqb c "010"
   || Ascii.eqb c "013")%char.

Definition slash : ascii := "/"%char.

End Templates.

(** ** Sequences of storage operations *)

Module Sessions.
Import Py Schema Storage.

(** A client's request to the storage interface. *)
Inductive Op :=
| OpRemove (force : bool)
| OpUpdate.

Section Run.
Context {Criteria Sort Params Answer : Type}.
Variable respond : Call Criteria Sort Params → Answer.

(** The requests [ops] made one after the other on the same entity
    object. *)
Fixpoint run (ops : list Op) (entity : Entity)
  : M (Criteria:=Criteria) (Sort:=Sort) (Params:=Params) Entity :=
  match ops with
  | [] => ret entity
  | OpRemove force :: ops' => bind (remove respond entity force) (run ops')
  | OpUpdate :: ops' => bind (update respond entity) (run ops')
  end.
End Run.

Definition is_hard_delete {Criteria Sort Params}
    (c : Call Criteria Sort Params) : bool :=
  match c with CRemove _ => true | _ => false end.

End Sessions.

(** ** Tuples of candidates in [isinstance] *)

Module Candidates.
Import Py Messaging.

(** The values of a possibly nested tuple, left to right; a value that
    is not a tuple stands for itself. *)
Fixpoint leaves (o : PyObj) : list PyObj :=
  match o with
  | OTuple items =>
      (fix go (l : list PyObj) : list PyObj :=
         match l with
         | [] => []
         | x :: l' => leaves x ++ go l'
         end) items
  | _ => [o]
  end.

(** Reading candidates left to right with the check [one]: the first
    candidate that answers [True] or raises ends the search. *)
Fixpoint scan (one : PyObj → Result bool) (l : list PyObj) : Result bool :=
  match l with
  | [] => Ok false
  | x :: l' =>
      match one x with
      | Ok true => Ok true
      | Ok false => scan one l'
      | Raise e => Raise e
      end
  end.

Definition full_stop : ascii := "."%char.

End Candidates.

(** ** [UpdateEntity]: the generic update handler *)

Module Crud.
Import Py Schema Storage.

(** Exceptions of the built-in operations used here, beside those a
    collaborator raises. *)
Inductive Error :=
| Builtin (e : Exception)
| IndexError.

Inductive Outcome (A : Type) :=
| Returns (a : A)
| Raises (e : Error).
Arguments Returns {A} a.
Arguments Raises {A} e.

Section UpdateEntity.
Context {Ev : Type}.

(** The calls the handler makes on its collaborators. *)
Inductive Effect :=
| EFind (id : Value)
| EUpdate (entity : Entity)
| EDispatch (event : Ev).

(** [self._type()], and the collaborators that are not part of the
    sources: [match_id_from_argument_list] of the entity type, [find]
    and [update] of the registry's repository, [dispatch] of the bus and
    [_build_event]. Each may raise. *)
Variable type_ : EntityType.
Variable match_id_from_argument_list :
  EntityType → list (string * Value) → Outcome (list (string * Value)).
Variable find : Value → Outcome Entity.
Variable update : Entity → Outcome unit.
Variable dispatch : Ev → Outcome unit.
Variable _build_event : EntityType → string → Ev.

(** One iteration of [for k, v in kwargs.items()]. *)
Definition assign (entity : Entity) (kv : string * Value) : Entity :=
  if hasattr entity kv.1 then setattr entity kv.1 kv.2 else entity.

(** [UpdateEntity.__call__]: its result and the calls made, in order.
    [kwargs] lists the keyword arguments in the order of the mapping. *)
Definition __call__ (kwargs : list (string * Value))
  : Outcome Entity * list Effect :=
  match match_id_from_argument_list type_ kwargs with
  | Raises e => (Raises e, [])
  | Returns id_arg =>
      match last (id_arg.*2) with
      | None => (Raises IndexError, [])
      | Some id =>
          match find id with
          | Raises e => (Raises e, [EFind id])
          | Returns entity =>
              let entity := fold_left assign kwargs entity in
              match update entity with
              | Raises e => (Raises e, [EFind id; EUpdate entity])
              | Returns _ =>
                  let event := _build_event type_ "update" in
                  match dispatch event with
                  | Raises e =>
                      (Raises e, [EFind id; EUpdate entity; EDispatch event])
                  | Returns _ =>
                      (Returns entity,
                       [EFind id; EUpdate entity; EDispatch event])
                  end
              end
          end
      end
  end.
End UpdateEntity.

Arguments Effect : clear implicits.

(** A request to rename a stored user, with an argument the user has no
    attribute for. *)
Definition rename_request : list (string * Value) :=
  [("id", VInt 7); ("name", VStr "baz"); ("nickname", VStr "b")].

Definition stored_user : Entity :=
  mkEntity Samples.user
    (<[ "id" := VInt 7 ]> (<[ "name" := VStr "foo" ]> ∅)).

Definition rename_stored_user : Outcome Entity * list (Effect string) :=
  __call__ Samples.user
    (λ _ kw, Returns (List.filter (λ kv, String.eqb kv.1 "id") kw))
    (λ _, Returns stored_user) (λ _, Returns tt) (λ _, Returns tt)
    (λ t op, (fqn t +:+ "." +:+ op)%string) rename_request.

End Crud.

(** ** [Extension]: the cache of service instances *)

Module Ext.
Import Py.

Section ServiceInstance.
(** Classes, the instances the container builds, and the container's
    [build], which may give a different answer each time it is asked:
    its first argument counts the builds made before. *)
Context {Cls Inst : Type} `{Countable Cls}.
Variable build : nat → Cls → Result Inst.

(** [self._service_instances] and the classes [build] was asked for,
    oldest first. *)
Record State := mkState {
  _service_instances : gmap Cls Inst;
  builds : list Cls
}.

(** [service_instance(cls)]: an instance, or the class itself when the
    container cannot build it. *)
Definition service_instance (cls : Cls) (st : State)
  : Result (Inst + Cls) * State :=
  match _service_instances st !! cls with
  | Some i => (Ok (inl i), st)
  | None =>
      let st' := mkState (_service_instances st) (builds st ++ [cls]) in
      match build (length (builds st)) cls with
      | Ok i =>
          (Ok (inl i),
           mkState (<[cls := i]> (_service_instances st)) (builds st ++ [cls]))
      | Raise TypeError => (Ok (inr cls), st')
      | Raise e => (Raise e, st')
      end
  end.

(** The state after asking for the classes [cs] one after the other. *)
Definition after (cs : list Cls) (st : State) : State :=
  fold_left (λ st c, (service_instance c st).2) cs st.
End ServiceInstance.

Arguments State : clear implicits.
Arguments State Cls Inst {_ _}.

End Ext.

(** * Properties *)

(** ** Column and index derivation *)

Module SchemaProps.
Import Py Schema.

Lemma columns_step_mapped self ret f :
  columns_step self ret f =
  ret ++ (if mapped self f then [column_of f] else []).
Proof.
  unfold columns_step, mapped.
  destruct (is_private f), (map_all self), (map_indexes self),
    (has_key "index" f), (has_key "id" f); simpl;
    by rewrite ?app_nil_r.
Qed.

Lemma fold_columns_step self fs acc :
  fold_left (columns_step self) fs acc = acc ++ (column_of <$> kept self fs).
Proof.
  revert acc. induction fs as [|f fs IH]; intros acc; simpl.
  - by rewrite app_nil_r.
  - rewrite IH, columns_step_mapped. unfold kept. rewrite filter_cons.
    destruct (mapped self f) eqn:Hm.
    + rewrite decide_True by done. by rewrite <- app_assoc.
    + rewrite decide_False by (by intros []). by rewrite app_nil_r.
Qed.

Lemma get_entity_columns_kept self entity :
  get_entity_columns self entity =
  if map_all self then column_of <$> kept self (fields entity)
  else list_insert_at 1 document_column (column_of <$> kept self (fields entity)).
Proof.
  unfold get_entity_columns. rewrite fold_columns_step. simpl.
  by destruct (map_all self).
Qed.

Lemma elem_of_list_insert_at {A} i (x y : A) l :
  y ∈ l → y ∈ list_insert_at i x l.
Proof.
  intros Hy. unfold list_insert_at.
  rewrite <- (take_drop i l) in Hy.
  apply elem_of_app in Hy as [Hy|Hy]; apply elem_of_app; [by left|].
  right. by apply elem_of_cons; right.
Qed.

Lemma length_list_insert_at {A} i (x : A) l :
  length (list_insert_at i x l) = S (length l).
Proof.
  unfold list_insert_at. rewrite length_app. simpl.
  rewrite <- Nat.add_succ_comm. simpl.
  rewrite <- length_app. by rewrite take_drop.
Qed.

(** C5, amended: outside map-all mode the result is the document column
    (named ['document'], of type ['str']) inserted at position 1 into the
    columns, in order, of exactly those fields whose name does not start
    with an underscore and whose metadata has the ['id'] key, or the
    ['index'] key when index mapping is enabled; every such field has its
    column in the result, no other field has one, and the result has
    exactly one column more than there are such fields. *)
Theorem get_entity_columns_document_mode (self : Settings) (entity : EntityType) :
  map_all self = false →
  get_entity_columns self entity =
    list_insert_at 1 document_column (column_of <$> kept self (fields entity))
  ∧ (∀ f, f ∈ fields entity → is_private f = false →
          has_key "id" f = true ∨
          (map_indexes self = true ∧ has_key "index" f = true) →
          column_of f ∈ get_entity_columns self entity)
  ∧ (∀ f, f ∈ kept self (fields entity) →
          f ∈ fields entity ∧ is_private f = false ∧
          (has_key "id" f = true ∨
           (map_indexes self = true ∧ has_key "index" f = true)))
  ∧ length (get_entity_columns self entity) =
      S (length (kept self (fields entity)))
  ∧ c_name document_column = "document"
  ∧ c_type document_column = Literal "str".
Proof.
  intros Hall.
  assert (Heq : get_entity_columns self entity =
    list_insert_at 1 document_column (column_of <$> kept self (fields entity))).
  { rewrite get_entity_columns_kept. by rewrite Hall. }
  split; [exact Heq|]. split; [|split; [|split; [|done]]].
  - intros f Hf Hpub Htag. rewrite Heq.
    apply elem_of_list_insert_at, list_elem_of_fmap_2.
    apply list_elem_of_filter. split; [|done].
    unfold mapped. rewrite Hpub, Hall. simpl.
    destruct Htag as [->|[-> ->]]; simpl; [|done].
    by destruct (map_indexes self && has_key "index" f).
  - intros f Hf. apply list_elem_of_filter in Hf as [Hm Hf].
    split; [done|]. unfold mapped in Hm. rewrite Hall in Hm.
    destruct (is_private f); simpl in Hm; [done|]. split; [done|].
    destruct (map_indexes self), (has_key "index" f), (has_key "id" f);
      simpl in Hm; try done; auto.
  - rewrite Heq, length_list_insert_at. by rewrite length_fmap.
Qed.

Lemma get_entity_columns_document_mode_witness :
  map_all Samples.with_indexes = false ∧
  get_entity_columns Samples.with_indexes Samples.user =
    [column_of Samples.id_field; document_column;
     column_of Samples.name_field; column_of Samples.email_field].
Proof.
  split; [reflexivity|].
  destruct (get_entity_columns_document_mode Samples.with_indexes Samples.user
              eq_refl) as [Heq _].
  rewrite Heq. vm_compute. reflexivity.
Defined.

(** C5 as stated fails: a field tagged [id] whose name starts with an
    underscore is skipped by the loop and gets no column. *)
Lemma private_id_field_has_no_column :
  map_all Samples.document_only = false ∧
  ¬ (∀ f, f ∈ fields Samples.token → has_key "id" f = true →
          column_of f ∈ get_entity_columns Samples.document_only Samples.token).
Proof.
  split; [reflexivity|]. intros H.
  specialize (H Samples.private_id_field).
  assert (Hin : column_of Samples.private_id_field ∈
                get_entity_columns Samples.document_only Samples.token).
  { apply H; [apply list_elem_of_here | by vm_compute]. }
  vm_compute in Hin.
  apply list_elem_of_singleton in Hin. discriminate Hin.
Qed.

(** C6: the column list depends on the entity type only through its
    field metadata (two entity types with the same fields, and so two
    calls on one entity type, give equal lists), and the columns derived
    from fields appear in the declaration order of the fields, the
    document column apart. *)
Theorem get_entity_columns_pure_order_preserving
    (self : Settings) (entity entity' : EntityType) :
  fields entity' = fields entity →
  get_entity_columns self entity' = get_entity_columns self entity
  ∧ ∃ cols, cols `sublist_of` (column_of <$> fields entity) ∧
      get_entity_columns self entity =
        if map_all self then cols
        else list_insert_at 1 document_column cols.
Proof.
  intros Hf. split.
  - unfold get_entity_columns. by rewrite Hf.
  - exists (column_of <$> kept self (fields entity)). split.
    + apply fmap_sublist, sublist_filter.
    + apply get_entity_columns_kept.
Qed.

Lemma get_entity_columns_pure_order_preserving_witness :
  get_entity_columns Samples.with_indexes
                     (mkEntityType "crm.User" (fields Samples.user)) =
  get_entity_columns Samples.with_indexes Samples.user.
Proof.
  apply (get_entity_columns_pure_order_preserving Samples.with_indexes
           Samples.user (mkEntityType "crm.User" (fields Samples.user))).
  reflexivity.
Defined.

Section IndexProps.
Variable tableize : string → string.
Variable default_name : string → list string → bool → option string.
Variable truthy : Index → bool.

Lemma indexes_loop_named_miss table f fs ret name :
  f_metadata f !! "index" = Some (MStr name) →
  list_find (λ i, i_name i = Some name) ret = None →
  indexes_loop default_name truthy table (f :: fs) ret = Raise StopIteration.
Proof. intros Hidx Hfind. simpl. by rewrite Hidx, Hfind. Qed.

(** C1: on an entity type whose fields [name] and [email] are both
    tagged with the index name "idx_name_email" ([email] also
    unique), [get_entity_indexes] raises [StopIteration] at the first
    of them instead of returning one merged Index, whatever the Index
    class names an index built without a name. *)
Theorem get_entity_indexes_named_raises :
  get_entity_indexes tableize default_name truthy Samples.contact =
  Raise StopIteration.
Proof.
  unfold get_entity_indexes.
  apply (indexes_loop_named_miss _ Samples.name_field _ [] "idx_name_email");
    reflexivity.
Qed.
End IndexProps.

End SchemaProps.

(** ** The storage interface's operations *)

Module StorageProps.
Import Py Schema Storage.

Section Props.
Context {Criteria Sort Params Answer : Type}.
Variable respond : Call Criteria Sort Params → Answer.
Variable _generate_query :
  EntityType → string → Extra → string * option Params.
Variable _sql_prefix : string.

Local Abbreviation World := (World Criteria Sort Params).
Local Abbreviation Call := (Call Criteria Sort Params).

Lemma hasattr_true e k : hasattr e k = true ↔ is_Some (e_attrs e !! k).
Proof. unfold hasattr. apply bool_decide_eq_true. Qed.

Lemma hasattr_false e k : hasattr e k = false ↔ e_attrs e !! k = None.
Proof.
  unfold hasattr. rewrite bool_decide_eq_false.
  by rewrite eq_None_not_Some.
Qed.

Lemma remove_unfold entity force (w : World) :
  remove respond entity force w =
  if hasattr entity "deleted_on" && negb force
  then let e' := setattr entity "deleted_on" (VTime (clock w)) in
       (e', logged w [CEnsureConnected; CUpdate e'])
  else (entity, logged w [CEnsureConnected; CRemove entity]).
Proof.
  unfold remove, logged, _check_prerequisites, _ensure_connected, _update,
    _remove, seq, bind, ret, call, datetime_now.
  destruct (hasattr entity "deleted_on" && negb force); simpl;
    by rewrite <- app_assoc.
Qed.

(** C4: on an entity with a ['deleted_on'] attribute, [remove] without
    [force] sets ['deleted_on'] to the current time and hands the
    entity to [_update], and [_remove] is not called; with [force], or
    on an entity without the attribute, it leaves the entity as it is
    and calls [_remove]. *)
Theorem remove_soft_unless_forced (entity : Entity) (force : bool) (w : World) :
  (hasattr entity "deleted_on" = true → force = false →
     let e' := setattr entity "deleted_on" (VTime (clock w)) in
     remove respond entity force w =
       (e', logged w [CEnsureConnected; CUpdate e'])
     ∧ e_attrs e' !! "deleted_on" = Some (VTime (clock w)))
  ∧ (force = true ∨ hasattr entity "deleted_on" = false →
     remove respond entity force w =
       (entity, logged w [CEnsureConnected; CRemove entity])).
Proof.
  split.
  - intros Hattr ->. simpl. rewrite remove_unfold, Hattr. simpl.
    split; [done|]. apply lookup_insert_eq.
  - intros H. rewrite remove_unfold.
    destruct H as [->| ->]; [|done].
    by rewrite andb_false_r.
Qed.

Lemma update_unfold entity (w : World) :
  update respond entity w =
  let e' := if hasattr entity "updated_on"
            then setattr entity "updated_on" (VTime (clock w))
            else entity in
  (e', logged w [CEnsureConnected; CUpdate e']).
Proof.
  unfold update, logged, _check_prerequisites, _ensure_connected, _update,
    seq, bind, ret, call, datetime_now.
  destruct (hasattr entity "updated_on"); simpl; by rewrite <- app_assoc.
Qed.

(** C9: [update] changes no attribute of the entity other than
    ['updated_on'], which it sets to the current time when the entity
    has it; ['deleted_on'] and the class are as before; an entity
    without ['updated_on'] is unchanged; the entity is then handed to
    [_update], after [_ensure_connected]. *)
Theorem update_touches_only_updated_on (entity : Entity) (w : World) :
  let e' := (update respond entity w).1 in
  e_class e' = e_class entity
  ∧ (∀ k, k ≠ "updated_on" → e_attrs e' !! k = e_attrs entity !! k)
  ∧ e_attrs e' !! "deleted_on" = e_attrs entity !! "deleted_on"
  ∧ (hasattr entity "updated_on" = true →
       e_attrs e' !! "updated_on" = Some (VTime (clock w)))
  ∧ (hasattr entity "updated_on" = false → e' = entity)
  ∧ (update respond entity w).2 = logged w [CEnsureConnected; CUpdate e'].
Proof.
  rewrite update_unfold. simpl.
  destruct (hasattr entity "updated_on") eqn:Hattr; simpl.
  - repeat split; try done.
    + intros k Hk. by rewrite lookup_insert_ne.
    + by rewrite lookup_insert_ne.
    + intros _. apply lookup_insert_eq.
  - repeat split; done.
Qed.

(** The operations that go through [_check_prerequisites] do call
    [_ensure_connected] first. *)
Lemma crud_operations_connect_first now entity force uuid entity_type
    criteria limit offset sort raw count :
  connects_first (calls_of (add respond entity) now) = true
  ∧ connects_first
      (calls_of (all respond entity_type criteria limit offset sort raw count)
                now) = true
  ∧ connects_first (calls_of (find respond uuid entity_type) now) = true
  ∧ connects_first (calls_of (remove respond entity force) now) = true
  ∧ connects_first (calls_of (update respond entity) now) = true.
Proof.
  repeat split; try reflexivity.
  - unfold calls_of. rewrite remove_unfold.
    by destruct (hasattr entity "deleted_on" && negb force).
  - unfold calls_of. by rewrite update_unfold.
Qed.

Lemma run_template_calls entity name x now :
  calls_of (run_template respond _generate_query _sql_prefix entity name x) now =
  [CExecute (_generate_query entity (template _sql_prefix name) x).1
            (_generate_query entity (template _sql_prefix name) x).2].
Proof.
  unfold calls_of, run_template.
  by destruct (_generate_query entity (template _sql_prefix name) x).
Qed.

(** C7: [execute] hands the statement to [_execute] without calling
    [_ensure_connected]; so do the operations built on it ([clear],
    [destroy], [create_table], [create_index], [add_column]): on a
    fresh interface their only call to the backend is [_execute]. *)
Theorem execute_skips_ensure_connected
    (sql : string) (params : option Params) (now : Z)
    (entity : EntityType) (column : Column) (index : Index) :
  calls_of (execute respond sql params) now = [CExecute sql params]
  ∧ connects_first (calls_of (execute respond sql params) now) = false
  ∧ connects_first
      (calls_of (clear respond _generate_query _sql_prefix entity) now) = false
  ∧ connects_first
      (calls_of (destroy respond _generate_query _sql_prefix entity) now) = false
  ∧ connects_first
      (calls_of (create_table respond _generate_query _sql_prefix entity) now)
    = false
  ∧ connects_first
      (calls_of (create_index respond _generate_query _sql_prefix entity index)
                now) = false
  ∧ connects_first
      (calls_of (add_column respond _generate_query _sql_prefix entity column)
                now) = false.
Proof.
  repeat split; try reflexivity;
    unfold clear, destroy, create_table, create_index, add_column;
    by rewrite run_template_calls.
Qed.
End Props.

Lemma remove_soft_unless_forced_witness :
  let w := mkWorld (Criteria:=unit) (Sort:=unit) (Params:=unit) 1700000000 [] in
  let e' := setattr Samples.tracked_user "deleted_on" (VTime 1700000000) in
  remove (λ _, tt) Samples.tracked_user false w =
    (e', mkWorld 1700000000 [CEnsureConnected; CUpdate e'])
  ∧ remove (λ _, tt) Samples.tracked_user true w =
    (Samples.tracked_user,
     mkWorld 1700000000 [CEnsureConnected; CRemove Samples.tracked_user])
  ∧ remove (λ _, tt) Samples.plain_user false w =
    (Samples.plain_user,
     mkWorld 1700000000 [CEnsureConnected; CRemove Samples.plain_user]).
Proof.
  intros w e'. split; [|split].
  - apply (remove_soft_unless_forced (λ _, tt) Samples.tracked_user false w);
      reflexivity.
  - apply (remove_soft_unless_forced (λ _, tt) Samples.tracked_user true w).
    left. reflexivity.
  - apply (remove_soft_unless_forced (λ _, tt) Samples.plain_user false w).
    right. reflexivity.
Defined.

Lemma update_touches_only_updated_on_witness :
  let w := mkWorld (Criteria:=unit) (Sort:=unit) (Params:=unit) 1700000000 [] in
  e_attrs (update (λ _, tt) Samples.tracked_user w).1 !! "updated_on" =
    Some (VTime 1700000000)
  ∧ (update (λ _, tt) Samples.plain_user w).1 = Samples.plain_user.
Proof.
  intros w. split.
  - apply (update_touches_only_updated_on (λ _, tt) Samples.tracked_user w).
    reflexivity.
  - apply (update_touches_only_updated_on (λ _, tt) Samples.plain_user w).
    reflexivity.
Defined.

End StorageProps.

(** ** Event equality *)

Module MessagingProps.
Import Py Messaging.

Section Props.
Variable instance_check : Class → Class → Result bool.

Local Abbreviation isinstance := (isinstance instance_check).
Local Abbreviation eq_operator := (eq_operator instance_check).

Lemma rejected_raises_type_error self other :
  rejected_by_isinstance other = true → isinstance self other = Raise TypeError.
Proof. by destruct other as [| | | | |[check|] ?]. Qed.

Lemma __eq__raises self other e :
  __eq__ instance_check self other = Raise e →
  isinstance self other = Raise e ∧ e ≠ TypeError.
Proof.
  unfold __eq__.
  destruct (is_str other && equals_str other (__str__ self)); [discriminate|].
  destruct (isinstance self other) as [b|[]]; try discriminate;
    intros [= <-]; by split.
Qed.

(** C8, amended: an event whose class takes [__eq__] from [Event] (no
    generated [__eq__] comes first) equals its own string form, its own
    class and every type [isinstance] answers [True] for; compared with
    a value that an instance check rejects ([None], a number, a string,
    an object whose type defines no [__instancecheck__]) and that is
    not its string form, the result is [False] rather than an
    exception; and a comparison raises only what [isinstance] raises
    other than [TypeError]. *)
Theorem event_eq_string_and_types (self : Event) :
  dataclass_eq (__class__ self) = false →
  eq_operator self (OStr (__str__ self)) = Ok true
  ∧ eq_operator self (OType (__class__ self)) = Ok true
  ∧ (∀ T, isinstance self (OType T) = Ok true →
          eq_operator self (OType T) = Ok true)
  ∧ (∀ other, rejected_by_isinstance other = true →
              equals_str other (__str__ self) = false →
              eq_operator self other = Ok false)
  ∧ (∀ other e, eq_operator self other = Raise e →
                isinstance self other = Raise e ∧ e ≠ TypeError).
Proof.
  intros Hown. unfold Messaging.eq_operator. rewrite Hown.
  split; [|split; [|split; [|split]]].
  - unfold __eq__. simpl. by rewrite String.eqb_refl.
  - unfold __eq__. simpl. by rewrite bool_decide_eq_true_2.
  - intros T HT. unfold __eq__. simpl in *. by rewrite HT.
  - intros other Hrej Hstr. unfold __eq__.
    rewrite Hstr, andb_false_r.
    by rewrite rejected_raises_type_error.
  - intros other e. apply __eq__raises.
Qed.
End Props.

Lemma event_eq_string_and_types_witness :
  eq_operator Samples.flat_hierarchy Samples.user_created_event
              (OType Samples.user_created) = Ok true
  ∧ eq_operator Samples.flat_hierarchy Samples.user_created_event
                (OStr "iam.UserCreated") = Ok true
  ∧ eq_operator Samples.flat_hierarchy Samples.user_created_event
                (OStr "UserCreated") = Ok false
  ∧ eq_operator Samples.flat_hierarchy Samples.user_created_event (OInt 7) =
    Ok false.
Proof.
  pose proof (event_eq_string_and_types Samples.flat_hierarchy
                Samples.user_created_event eq_refl)
    as (Hstr & Hown & _ & Hother & _).
  split; [|split; [|split]].
  - exact Hown.
  - exact Hstr.
  - apply Hother; reflexivity.
  - apply Hother; reflexivity.
Defined.

(** C8 as stated fails: a tuple is neither a type nor a string, yet an
    event compares equal to a tuple holding its class, because
    [isinstance] accepts tuples of types. *)
Lemma tuple_holding_class_compares_equal :
  ¬ (∀ other, is_type other = false →
              equals_str other (__str__ Samples.user_created_event) = false →
              eq_operator Samples.flat_hierarchy Samples.user_created_event
                          other = Ok false).
Proof.
  intros H.
  specialize (H (OTuple [OType Samples.user_created]) eq_refl eq_refl).
  vm_compute in H. discriminate H.
Qed.

End MessagingProps.

(** ** The generic query service *)

Module QueryProps.
Import Py Query.

Lemma py_slice_nonneg {A} (xs : list A) (o n : Z) :
  0 ≤ o → 0 ≤ n →
  py_slice xs o (o + n) = take (Z.to_nat n) (drop (Z.to_nat o) xs).
Proof.
  intros Ho Hn. unfold py_slice.
  destruct (Z.ltb_spec o 0) as [?|_]; [lia|].
  destruct (Z.ltb_spec (o + n) 0) as [?|_]; [lia|].
  destruct (Z_le_gt_dec (Z.of_nat (length xs)) o) as [Hge|Hlt].
  - rewrite !Z.min_r by lia.
    rewrite Z.sub_diag, (drop_ge xs (Z.to_nat o)) by lia.
    by rewrite take_nil.
  - rewrite (Z.min_l o) by lia.
    destruct (Z_le_gt_dec (o + n) (Z.of_nat (length xs))) as [Hfit|Hover].
    + rewrite Z.min_l by lia. f_equal. lia.
    + rewrite Z.min_r by lia.
      rewrite !take_ge; [done| |]; rewrite length_drop; lia.
Qed.

Section Props.
Context {Entity IdVal Dict BinaryOp SortSpec : Type}.
Context `{EqDecision IdVal}.
Variable id_name : string.
Variable id_value : Entity → IdVal.
Variable deserialize : string → Result Dict.
Variable from_dict : Dict → Result BinaryOp.
Variable satisfies : BinaryOp → Entity → bool.
Variable sorted : SortSpec → list Entity → list Entity.

Local Abbreviation call :=
  (__call__ id_name id_value deserialize from_dict satisfies sorted).
Local Abbreviation criteria_of := (criteria_of deserialize from_dict).
Local Abbreviation matching := (matching satisfies).
Local Abbreviation ordered := (ordered sorted).

(** What a call that gets past the identifier lookup and the criteria
    decoding returns with both bounds given ... *)
Lemma __call__paginated store kwargs (l o : Z) c :
  kw_id kwargs = None →
  kw_limit kwargs = Some (Some l) →
  kw_offset kwargs = Some (Some o) →
  criteria_of kwargs = Ok c →
  call store kwargs =
  Ok (Paginated
        (mkEnvelope
           (py_slice (ordered (kw_sort kwargs) (matching c store)) o (o + l))
           (Some o) (Some l)
           (Some (Z.of_nat (length (matching c store)) - 1)))).
Proof.
  intros Hid Hl Ho Hc. unfold __call__.
  rewrite Hid, Hl, Ho, Hc. simpl.
  unfold apply_sort, set_range, wrap, r_len, r_list.
  by destruct c, (kw_sort kwargs).
Qed.

(** ... and with at least one of them missing. *)
Lemma __call__plain store kwargs c :
  kw_id kwargs = None →
  kw_limit kwargs = None ∨ kw_offset kwargs = None →
  criteria_of kwargs = Ok c →
  call store kwargs =
  Ok (Sequence (ordered (kw_sort kwargs) (matching c store))).
Proof.
  intros Hid Hmiss Hc. unfold __call__. rewrite Hid, Hc. simpl.
  assert (Hpair : match kw_limit kwargs, kw_offset kwargs with
                  | Some l, Some o => (l, o)
                  | _, _ => (None, None)
                  end = (None, None)).
  { destruct Hmiss as [-> | ->]; [done|]. by destruct (kw_limit kwargs). }
  rewrite Hpair. unfold apply_sort, r_list.
  by destruct c, (kw_sort kwargs).
Qed.

Lemma __call__paginated_inv store kwargs env :
  call store kwargs = Ok (Paginated env) →
  ∃ l o, kw_limit kwargs = Some (Some l) ∧ kw_offset kwargs = Some (Some o).
Proof.
  unfold __call__. destruct (kw_id kwargs) as [v|].
  { destruct (r_find _ _ _) as [?|[]]; simpl; intros Hr; discriminate Hr. }
  destruct (kw_limit kwargs) as [[l|]|], (kw_offset kwargs) as [[o|]|];
    destruct (criteria_of kwargs) as [c|]; unfold mbind, result_bind; simpl;
    try (intros Hr; discriminate Hr).
  intros _. by exists l, o.
Qed.

(** The slice of line 57 and the sort of line 61 are both recorded on
    the repository and carried out when it is listed: recording the
    slice before the sort lists the same entities as recording the sort
    before the slice. *)
Lemma slice_and_sort_commute
    (r : Repository Entity BinaryOp SortSpec) (a b : Z) (cb : unit → SortSpec) :
  r_list satisfies sorted (r_sorted (r_getitem r a b) cb) =
  r_list satisfies sorted (r_getitem (r_sorted r cb) a b).
Proof. reflexivity. Qed.

(** C3: with ['sort'], ['limit'] ([l]) and ['offset'] ([o]) supplied, the
    call returns an Envelope whose items are the slice [o : o + l] of
    the whole matching set sorted under the sort specification, that
    is, for non-negative bounds, its positions [o] through
    [o + l - 1]: the sort applies to the whole matching set and the
    slice is taken from the sorted sequence. *)
Theorem paginated_items_sorted_then_sliced
    store kwargs (s : SortSpec) (l o : Z) c :
  kw_id kwargs = None →
  kw_sort kwargs = Some s →
  kw_limit kwargs = Some (Some l) →
  kw_offset kwargs = Some (Some o) →
  criteria_of kwargs = Ok c →
  ∃ env,
    call store kwargs = Ok (Paginated env)
    ∧ items env = py_slice (sorted s (matching c store)) o (o + l)
    ∧ (0 ≤ o → 0 ≤ l →
       items env =
         take (Z.to_nat l) (drop (Z.to_nat o) (sorted s (matching c store)))).
Proof.
  intros Hid Hs Hl Ho Hc.
  eexists. split; [by apply __call__paginated|]. simpl. rewrite Hs. simpl.
  split; [done|]. intros ??. by apply py_slice_nonneg.
Qed.

(** C10: an Envelope is returned only if both ['limit'] and ['offset']
    are supplied; when one of them is missing, a call that gets past
    the identifier lookup returns the whole list of matching entities
    (sorted if ['sort'] is supplied) as a plain sequence. *)
Theorem envelope_only_with_limit_and_offset store kwargs :
  (∀ env, call store kwargs = Ok (Paginated env) →
          is_Some (kw_limit kwargs) ∧ is_Some (kw_offset kwargs))
  ∧ (∀ c, kw_id kwargs = None →
          kw_limit kwargs = None ∨ kw_offset kwargs = None →
          criteria_of kwargs = Ok c →
          call store kwargs =
            Ok (Sequence (ordered (kw_sort kwargs) (matching c store)))).
Proof.
  split.
  - intros env Hcall.
    apply __call__paginated_inv in Hcall as (l & o & -> & ->). by split.
  - intros c. apply __call__plain.
Qed.
End Props.

Lemma paginated_items_sorted_then_sliced_witness :
  ∃ env,
    Samples.query_users Samples.users Samples.second_page_descending =
      Ok (Paginated env)
    ∧ items env = [2; 1].
Proof.
  destruct (paginated_items_sorted_then_sliced "id" (λ e, e)
              (λ _, Raise DeserializationError) (λ d, Ok d)
              (λ bound e, e <? bound) Samples.sort_users
              Samples.users Samples.second_page_descending true 2 1 None
              eq_refl eq_refl eq_refl eq_refl eq_refl)
    as (env & Hcall & Hitems & _).
  exists env. split; [exact Hcall|]. rewrite Hitems. reflexivity.
Defined.

Lemma envelope_only_with_limit_and_offset_witness :
  Samples.query_users Samples.users Samples.limit_only = Ok (Sequence [1; 2]).
Proof.
  destruct (envelope_only_with_limit_and_offset "id" (λ e, e)
              (λ _, Raise DeserializationError) (λ d, Ok d)
              (λ bound e, e <? bound) Samples.sort_users
              Samples.users Samples.limit_only) as [_ Hplain].
  exact (Hplain (Some 3) eq_refl (or_intror eq_refl) eq_refl).
Defined.

(** C2: on a store of three users, a call with [limit=1] and [offset=0]
    returns an Envelope whose total is 2, one less than the three
    entities the unpaginated query returns: the call passes
    [count - 1] to [set_range]. *)
Theorem paginated_total_is_one_short :
  Samples.query_users Samples.users Samples.first_page =
    Ok (Paginated (mkEnvelope [3] (Some 0) (Some 1) (Some 2)))
  ∧ Samples.query_users Samples.users
      (mkKwargs None None None None None) = Ok (Sequence [3; 1; 2])
  ∧ r_len (λ (bound e : Z), e <? bound) Samples.sort_users
          (registry (SortSpec:=bool) Samples.users) = 3.
Proof. repeat split. Qed.

End QueryProps.

(** ** More on column and index derivation *)

Module SelectionProps.
Import Py Schema Selection.

Lemma elem_of_list_insert_at_iff {A} i (x y : A) l :
  y ∈ list_insert_at i x l ↔ y = x ∨ y ∈ l.
Proof.
  unfold list_insert_at. rewrite elem_of_app, elem_of_cons.
  assert (Hl : y ∈ l ↔ y ∈ take i l ∨ y ∈ drop i l).
  { by rewrite <- elem_of_app, take_drop. }
  tauto.
Qed.

Lemma kept_map_all self fs :
  map_all self = true →
  kept self fs = filter (λ f, is_private f = false) fs.
Proof.
  intros Hall. unfold kept. apply list_filter_iff. intros f.
  unfold mapped. rewrite Hall. simpl.
  destruct (is_private f); simpl; split; done.
Qed.

Lemma elem_of_kept self fs f :
  f ∈ kept self fs → f ∈ fs ∧ is_private f = false.
Proof.
  unfold kept. rewrite list_elem_of_filter. unfold mapped.
  intros [Hm Hf]. split; [done|]. by destruct (is_private f).
Qed.

(** X1: In map-all mode the columns are those of the fields whose name does
    not start with an underscore, in declaration order, and nothing
    else: no document column is added. *)
Theorem get_entity_columns_map_all (self : Settings) (entity : EntityType) :
  map_all self = true →
  get_entity_columns self entity =
    column_of <$> filter (λ f, is_private f = false) (fields entity).
Proof.
  intros Hall. rewrite SchemaProps.get_entity_columns_kept, Hall.
  by rewrite kept_map_all.
Qed.

Lemma get_entity_columns_map_all_witness :
  c_name <$> get_entity_columns (mkSettings false true) account =
  ["id"; "email"; "name"].
Proof.
  rewrite (get_entity_columns_map_all (mkSettings false true) account eq_refl).
  vm_compute. reflexivity.
Defined.

(** X2: In every mode, each column is the document column or the column of
    a field of the entity whose name does not start with an underscore;
    so no column name starts with an underscore. *)
Theorem get_entity_columns_never_private (self : Settings) (entity : EntityType) (c : Column) :
  c ∈ get_entity_columns self entity →
  String.prefix "_" (c_name c) = false
  ∧ (c = document_column
     ∨ ∃ f, f ∈ fields entity ∧ is_private f = false ∧ c = column_of f).
Proof.
  rewrite SchemaProps.get_entity_columns_kept. intros Hc.
  assert (Hcases : c = document_column ∨
            c ∈ column_of <$> kept self (fields entity)).
  { destruct (map_all self); [by right|].
    by apply elem_of_list_insert_at_iff in Hc. }
  destruct Hcases as [->|Hin].
  - split; [reflexivity | by left].
  - apply list_elem_of_fmap in Hin as (f & -> & Hf).
    apply elem_of_kept in Hf as [Hf Hpub].
    split; [exact Hpub|]. right. by exists f.
Qed.

Lemma get_entity_columns_never_private_witness :
  String.prefix "_" (c_name (column_of account_name)) = false
  ∧ (column_of account_name = document_column
     ∨ ∃ f, f ∈ fields account ∧ is_private f = false
            ∧ column_of account_name = column_of f).
Proof.
  apply (get_entity_columns_never_private (mkSettings true false) account).
  vm_compute. do 3 right. left.
Defined.

Lemma kept_mono_indexes fs f all_ :
  f ∈ kept (mkSettings false all_) fs → f ∈ kept (mkSettings true all_) fs.
Proof.
  unfold kept. rewrite !list_elem_of_filter. unfold mapped. simpl.
  intros [Hm Hf]. split; [|done].
  destruct (is_private f), all_, (has_key "index" f), (has_key "id" f); done.
Qed.

Lemma kept_mono_all self fs f :
  f ∈ kept self fs → f ∈ kept (mkSettings (map_indexes self) true) fs.
Proof.
  unfold kept. rewrite !list_elem_of_filter. unfold mapped. simpl.
  intros [Hm Hf]. split; [|done]. by destruct (is_private f).
Qed.

(** X3: Switching index mapping on only adds columns, and every column of a
    document-mode mapping other than the document column is also a
    column in map-all mode. (The order can differ: the document column
    stays at position 1.) *)
Theorem get_entity_columns_grow_with_settings (entity : EntityType) (c : Column) :
  (c ∈ get_entity_columns (mkSettings false false) entity →
   c ∈ get_entity_columns (mkSettings true false) entity)
  ∧ (∀ self, c ∈ get_entity_columns self entity →
       c = document_column
       ∨ c ∈ get_entity_columns (mkSettings (map_indexes self) true) entity).
Proof.
  split.
  - rewrite !SchemaProps.get_entity_columns_kept. simpl.
    rewrite !elem_of_list_insert_at_iff. intros [->|Hc]; [by left|]. right.
    apply list_elem_of_fmap in Hc as (f & -> & Hf).
    by apply list_elem_of_fmap_2, kept_mono_indexes.
  - intros self. rewrite !SchemaProps.get_entity_columns_kept. simpl.
    intros Hc.
    assert (Hcases : c = document_column ∨
              c ∈ column_of <$> kept self (fields entity)).
    { destruct (map_all self); [by right|].
      by apply elem_of_list_insert_at_iff in Hc. }
    destruct Hcases as [->|Hin]; [by left|]. right.
    apply list_elem_of_fmap in Hin as (f & -> & Hf).
    by apply list_elem_of_fmap_2, kept_mono_all.
Qed.

Lemma get_entity_columns_grow_with_settings_witness :
  column_of account_id ∈ get_entity_columns (mkSettings true false) account.
Proof.
  apply (get_entity_columns_grow_with_settings account (column_of account_id)).
  vm_compute. left.
Defined.

(** X4: Outside map-all mode the document column directly follows the
    column of the first mapped field; an entity without any mapped field
    has the document column alone. *)
Theorem document_column_position (self : Settings) (entity : EntityType) :
  map_all self = false →
  (kept self (fields entity) = [] →
   get_entity_columns self entity = [document_column])
  ∧ (∀ f fs, kept self (fields entity) = f :: fs →
       get_entity_columns self entity =
         column_of f :: document_column :: (column_of <$> fs)).
Proof.
  intros Hall. rewrite SchemaProps.get_entity_columns_kept, Hall.
  split; [by intros ->|]. by intros f fs ->.
Qed.

Lemma document_column_position_witness :
  get_entity_columns (mkSettings false false)
                     (mkEntityType "iam.Note" [account_name]) =
  [document_column].
Proof.
  apply (document_column_position (mkSettings false false)
           (mkEntityType "iam.Note" [account_name]) eq_refl).
  reflexivity.
Defined.

(** X5: Every name [_select_list] selects is the name of a column
    [get_entity_columns] derives under the same settings. *)
Theorem select_list_selects_columns (self : Settings) (entity : EntityType) (n : string) :
  n ∈ _select_list self entity →
  n ∈ c_name <$> get_entity_columns self entity.
Proof.
  unfold _select_list. destruct (map_all self) eqn:Hall; [done|].
  intros ->%list_elem_of_singleton.
  apply (list_elem_of_fmap_2' _ _ document_column); [|done].
  rewrite SchemaProps.get_entity_columns_kept, Hall.
  apply elem_of_list_insert_at_iff. by left.
Qed.

Lemma select_list_selects_columns_witness :
  "document" ∈ c_name <$> get_entity_columns (mkSettings true false) account.
Proof.
  apply (select_list_selects_columns (mkSettings true false) account).
  vm_compute. left.
Defined.

End SelectionProps.

(** ** More on index derivation *)

Module IndexProps.
Import Py Schema Selection.

Lemma replace_dots_no_dot s : dot ∉ chars (replace_dots s).
Proof.
  induction s as [|c s IH]; simpl.
  - apply not_elem_of_nil.
  - unfold chars, dot in *. simpl. intros [Hc|Hc]%elem_of_cons; [|done].
    destruct (Ascii.eqb_spec c "."); [discriminate Hc | congruence].
Qed.

Section Props.
Variable tableize : string → string.
Variable default_name : string → list string → bool → option string.
Variable truthy : Index → bool.

Local Abbreviation loop := (indexes_loop default_name truthy).
Local Abbreviation derive := (get_entity_indexes tableize default_name truthy).
Local Abbreviation table_of entity := (replace_dots (tableize (fqn entity))).
Local Abbreviation well_derived entity :=
  (well_derived (table_of entity) (fields entity)).

Lemma index_lookup_cases f :
  (f_metadata f !! "index" = Some (MBool true)
   ∧ index_true f = true ∧ index_named f = false)
  ∨ ((∃ name, f_metadata f !! "index" = Some (MStr name))
     ∧ index_true f = false ∧ index_named f = true)
  ∨ (index_true f = false ∧ index_named f = false
     ∧ ∀ table fs ret, loop table (f :: fs) ret = loop table fs ret).
Proof.
  unfold index_true, index_named. simpl.
  destruct (f_metadata f !! "index") as [[| [] | |name]|] eqn:Hidx;
    eauto 10.
Qed.

Lemma indexes_loop_unnamed table fs ret :
  Forall (λ f, index_named f = false) fs →
  loop table fs ret =
  Ok (ret ++ (new_index default_name table <$>
                filter (λ f, index_true f = true) fs)).
Proof.
  intros Hfs. revert ret. induction Hfs as [|f fs Hf _ IH]; intros ret.
  - simpl. by rewrite app_nil_r.
  - rewrite filter_cons.
    destruct (index_lookup_cases f)
      as [(Hidx & Ht & _)|[(_ & _ & Hn)|(Ht & _ & Hskip)]].
    + simpl. rewrite Hidx, IH, decide_True by done.
      by rewrite <- app_assoc.
    + congruence.
    + rewrite Hskip, IH, decide_False by congruence. done.
Qed.

(** X6: An entity type none of whose fields carries a string-valued index
    gets one single-column Index per field whose index metadata is
    [True], in declaration order, on the entity's table, unique exactly
    when the field is tagged unique. *)
Theorem get_entity_indexes_single_columns (entity : EntityType) :
  Forall (λ f, index_named f = false) (fields entity) →
  derive entity =
  Ok ((λ f, mkIndex (default_name (replace_dots (tableize (fqn entity)))
                                  [f_name f] (unique_is_true f))
                    (replace_dots (tableize (fqn entity)))
                    [f_name f] (unique_is_true f))
        <$> filter (λ f, index_true f = true) (fields entity)).
Proof.
  intros Hfs. unfold get_entity_indexes.
  by rewrite indexes_loop_unnamed.
Qed.

Lemma indexes_loop_skip table pre rest ret :
  Forall (λ f, index_true f = false ∧ index_named f = false) pre →
  loop table (pre ++ rest) ret = loop table rest ret.
Proof.
  induction 1 as [|f pre [Ht Hn] _ IH]; [done|].
  destruct (index_lookup_cases f)
    as [(_ & Ht' & _)|[(_ & _ & Hn')|(_ & _ & Hskip)]]; try congruence.
  rewrite <- app_comm_cons. by rewrite Hskip.
Qed.

(** X7: If the first field that carries an index ([True] or a name) carries
    a name, [get_entity_indexes] raises [StopIteration], whatever the
    fields after it are and however the Index class names indexes. *)
Theorem get_entity_indexes_first_named_raises
    (entity : EntityType) (pre post : list Field) (f : Field) :
  fields entity = pre ++ f :: post →
  Forall (λ g, index_true g = false ∧ index_named g = false) pre →
  index_named f = true →
  derive entity = Raise StopIteration.
Proof.
  intros Hfields Hpre Hf. unfold get_entity_indexes.
  rewrite Hfields, indexes_loop_skip by done.
  unfold index_named in Hf. simpl.
  destruct (f_metadata f !! "index") as [[| | |name]|]; try discriminate Hf.
  done.
Qed.

Lemma has_key_lookup k f v : f_metadata f !! k = Some v → has_key k f = true.
Proof. intros H. unfold has_key. apply bool_decide_eq_true. by rewrite H. Qed.

Lemma new_index_well_derived entity f :
  f ∈ fields entity → has_key "index" f = true →
  well_derived entity
    (new_index default_name (replace_dots (tableize (fqn entity))) f).
Proof.
  intros Hf Hidx. unfold well_derived, new_index. simpl.
  split; [done|]. split; [apply replace_dots_no_dot|]. split; [done|]. split.
  - intros c Hc. apply list_elem_of_singleton in Hc as ->. eauto.
  - intros Hu. exists f. split; [done|]. split; [apply list_elem_of_here|done].
Qed.

Lemma merge_into_well_derived entity idx f :
  f ∈ fields entity → has_key "index" f = true →
  well_derived entity idx → well_derived entity (merge_into idx f).
Proof.
  intros Hf Hidx (Htab & Hdot & Hne & Hcols & Huniq).
  assert (Hcols' : ∀ c, c ∈ i_columns idx ++ [f_name f] →
            ∃ g, g ∈ fields entity ∧ f_name g = c ∧ has_key "index" g = true).
  { intros c [Hc|Hc]%elem_of_app; [eauto|].
    apply list_elem_of_singleton in Hc as ->. eauto. }
  unfold merge_into.
  destruct (unique_is_true f && negb (i_unique idx)) eqn:Hcond;
    unfold well_derived; simpl.
  - apply andb_true_iff in Hcond as [Hu _].
    repeat split; try done.
    + by intros ?%app_eq_nil%proj1.
    + intros _. exists f. split; [done|]. split; [|done].
      apply elem_of_app. right. apply list_elem_of_here.
  - repeat split; try done.
    + by intros ?%app_eq_nil%proj1.
    + intros Hu. destruct (Huniq Hu) as (g & Hg & Hin & Hgu).
      exists g. split; [done|]. split; [|done]. apply elem_of_app. by left.
Qed.

Lemma indexes_loop_invariant entity fs ret ret' :
  (∀ f, f ∈ fs → f ∈ fields entity) →
  Forall (well_derived entity) ret →
  loop (replace_dots (tableize (fqn entity))) fs ret = Ok ret' →
  Forall (well_derived entity) ret'
  ∧ (length ret' ≤
     length ret + length (filter (λ f, has_key "index" f = true) fs))%nat.
Proof.
  revert ret ret'. induction fs as [|f fs IH]; intros ret ret' Hsub Hret Hloop.
  { simpl in Hloop. injection Hloop as <-. split; [done|]. simpl. lia. }
  assert (Hf : f ∈ fields entity) by (apply Hsub, list_elem_of_here).
  assert (Hsub' : ∀ g, g ∈ fs → g ∈ fields entity).
  { intros g Hg. apply Hsub. by apply list_elem_of_further. }
  rewrite filter_cons. simpl in Hloop.
  destruct (f_metadata f !! "index") as [v|] eqn:Hidx.
  2:{ rewrite decide_False.
      - by apply IH.
      - unfold has_key. rewrite Hidx. intros Hk.
        apply bool_decide_eq_true in Hk. by destruct Hk. }
  pose proof (has_key_lookup _ _ _ Hidx) as Hkey.
  rewrite decide_True by done. simpl.
  assert (Hgrow : ∀ r, loop (replace_dots (tableize (fqn entity))) fs
                    (ret ++ [new_index default_name
                               (replace_dots (tableize (fqn entity))) f]) = Ok r →
            Forall (well_derived entity) r
            ∧ (length r ≤ length ret +
                 S (length (filter (λ f, has_key "index" f = true) fs)))%nat).
  { intros r Hr. apply IH in Hr as [HP Hlen]; [|done|].
    - split; [done|]. rewrite length_app in Hlen. simpl in Hlen. lia.
    - apply Forall_app. split; [done|]. apply Forall_singleton.
      by apply new_index_well_derived. }
  assert (Hsame : ∀ r, loop (replace_dots (tableize (fqn entity))) fs ret = Ok r →
            Forall (well_derived entity) r
            ∧ (length r ≤ length ret +
                 S (length (filter (λ f, has_key "index" f = true) fs)))%nat).
  { intros r Hr. apply IH in Hr as [HP Hlen]; [|done|done]. split; [done|lia]. }
  destruct v as [| [] | |name]; try (by apply Hsame).
  - by apply Hgrow.
  - destruct (list_find _ ret) as [[pos idx]|] eqn:Hfind; [|discriminate Hloop].
    destruct (truthy idx); simpl in Hloop; [|by apply Hgrow].
    apply list_find_Some in Hfind as (Hpos & _ & _).
    apply IH in Hloop as [HP Hlen]; [| done |].
    + split; [done|]. rewrite length_insert in Hlen. lia.
    + apply Forall_insert; [done|].
      apply merge_into_well_derived; [done|done|].
      eapply Forall_lookup_1; eauto.
Qed.

(** X8: Whenever [get_entity_indexes] returns, every Index it returns is on
    the entity's table name with dots replaced by underscores (so the
    name has no dot), has at least one column, has only names of fields
    of the entity that carry index metadata as columns, and is unique
    only if one of its columns is a field tagged unique; and there are
    at most as many indexes as fields with index metadata. *)
Theorem get_entity_indexes_well_derived (entity : EntityType) (ret : list Index) :
  derive entity = Ok ret →
  Forall (well_derived entity) ret
  ∧ (length ret ≤
     length (filter (λ f, has_key "index" f = true) (fields entity)))%nat.
Proof.
  intros Hret. unfold get_entity_indexes in Hret.
  by apply indexes_loop_invariant in Hret.
Qed.
End Props.

Lemma get_entity_indexes_single_columns_witness :
  get_entity_indexes (λ s, s) (λ _ _ _, None) (λ _, true) account =
  Ok [mkIndex None "iam_Account" ["email"] true;
      mkIndex None "iam_Account" ["name"] false].
Proof.
  rewrite (get_entity_indexes_single_columns (λ s, s) (λ _ _ _, None)
             (λ _, true) account).
  - vm_compute. reflexivity.
  - repeat constructor.
Defined.

Lemma get_entity_indexes_first_named_raises_witness :
  get_entity_indexes (λ s, s) (λ t cols _, Some "idx_name_email") (λ _, true)
                     Samples.user = Raise StopIteration.
Proof.
  apply (get_entity_indexes_first_named_raises _ _ _ Samples.user
           [Samples.id_field] [Samples.email_field] Samples.name_field).
  - reflexivity.
  - repeat constructor.
  - reflexivity.
Defined.

Lemma get_entity_indexes_well_derived_witness :
  Forall (λ idx, i_table idx = "iam_Account")
         [mkIndex None "iam_Account" ["email"] true;
          mkIndex None "iam_Account" ["name"] false].
Proof.
  destruct (get_entity_indexes_well_derived (λ s, s) (λ _ _ _, None)
              (λ _, true) account
              [mkIndex None "iam_Account" ["email"] true;
               mkIndex None "iam_Account" ["name"] false])
    as [Hall _].
  - vm_compute. reflexivity.
  - eapply Forall_impl; [exact Hall|]. intros idx (Htab & _). exact Htab.
Defined.

End IndexProps.

(** ** Template paths and SQL text *)

Module TemplatesProps.
Import Py Templates.
Import Selection.

Lemma append_cons c (a b : string) :
  (String c a +:+ b)%string = String c (a +:+ b).
Proof. reflexivity. Qed.

Lemma append_empty (b : string) : (EmptyString +:+ b)%string = b.
Proof. reflexivity. Qed.

Lemma string_app_assoc (a b c : string) :
  ((a +:+ b) +:+ c = a +:+ (b +:+ c))%string.
Proof.
  induction a as [|x a IH]; [done|]. by rewrite !append_cons, IH.
Qed.

Lemma split_on_cons_nonempty sep s : split_on sep s ≠ [].
Proof.
  destruct s as [|c s]; simpl; [done|].
  destruct (Ascii.eqb c sep); [done|]. by destruct (split_on sep s).
Qed.

Lemma split_on_app sep a rest :
  sep ∉ chars a →
  split_on sep (a +:+ String sep rest) = a :: split_on sep rest.
Proof.
  unfold chars. induction a as [|c a IH]; intros Hsep.
  - rewrite append_empty. simpl. by rewrite Ascii.eqb_refl.
  - simpl in Hsep. apply not_elem_of_cons in Hsep as [Hc Ha].
    rewrite append_cons. simpl.
    destruct (Ascii.eqb_spec c sep) as [->|_]; [done|].
    by rewrite IH.
Qed.

Lemma split_on_no_sep sep a : sep ∉ chars a → split_on sep a = [a].
Proof.
  unfold chars. induction a as [|c a IH]; simpl; intros Hsep; [done|].
  apply not_elem_of_cons in Hsep as [Hc Ha].
  destruct (Ascii.eqb_spec c sep) as [->|_]; [done|].
  by rewrite IH.
Qed.

(** X9: With a prefix and a file name that contain no slash, the candidates
    are the backend's own template and the shared ['sql/<name>'] one.
    With a prefix of two parts [a/b], the fallback is ['sql/b']: the
    second part of the prefix, not the file name. A template path
    without any slash has no candidates ([IndexError]). *)
Theorem template_candidates_fallback (a b name : string) :
  slash ∉ chars a → slash ∉ chars b → slash ∉ chars name →
  template_candidates (Storage.template a name) =
    Some [(a +:+ "/" +:+ name)%string; ("sql/" +:+ name)%string]
  ∧ template_candidates (Storage.template (a +:+ "/" +:+ b) name) =
    Some [(a +:+ "/" +:+ b +:+ "/" +:+ name)%string; ("sql/" +:+ b)%string]
  ∧ template_candidates name = None.
Proof.
  unfold slash. intros Ha Hb Hname.
  unfold template_candidates, Storage.template.
  split; [|split].
  - change ("/" +:+ name)%string with (String "/"%char name).
    rewrite (split_on_app _ a name Ha).
    by rewrite split_on_no_sep.
  - replace ((a +:+ "/" +:+ b) +:+ "/" +:+ name)%string
      with (a +:+ String "/" (b +:+ String "/" name))%string.
    2:{ rewrite string_app_assoc. reflexivity. }
    rewrite (split_on_app _ a _ Ha), (split_on_app _ b _ Hb).
    done.
  - by rewrite split_on_no_sep.
Qed.

Lemma not_in_chars x s :
  forallb (λ c, negb (Ascii.eqb c x)) (chars s) = true → x ∉ chars s.
Proof.
  rewrite forallb_forall. intros Hall Hx.
  apply list_elem_of_In, Hall in Hx. by rewrite Ascii.eqb_refl in Hx.
Qed.

Lemma template_candidates_fallback_witness :
  template_candidates (Storage.template "mysql" "create_table.sql") =
    Some ["mysql/create_table.sql"; "sql/create_table.sql"]
  ∧ template_candidates (Storage.template "sql/mysql" "create_table.sql") =
    Some ["sql/mysql/create_table.sql"; "sql/mysql"].
Proof.
  destruct (template_candidates_fallback "mysql" "mysql" "create_table.sql")
    as (H1 & _ & _); [by apply not_in_chars ..|].
  destruct (template_candidates_fallback "sql" "mysql" "create_table.sql")
    as (_ & H2 & _); [by apply not_in_chars ..|].
  split; [exact H1 | exact H2].
Defined.

End TemplatesProps.

(** ** Whitespace normalization of the SQL text *)

Module NormalizeProps.
Import Py Templates.

Section Props.
Variable is_space : ascii → bool.

Local Abbreviation py_split := (py_split is_space).
Local Abbreviation normalize_sql := (normalize_sql is_space).
Local Abbreviation is_word := (is_word is_space).

Lemma py_split_cons c s :
  py_split (String c s) =
  if is_space c then py_split s
  else match s with
       | EmptyString => [String c EmptyString]
       | String c' _ =>
           if is_space c' then String c EmptyString :: py_split s
           else match py_split s with
                | w :: ws => String c w :: ws
                | [] => [String c EmptyString]
                end
       end.
Proof. by destruct s. Qed.

Lemma is_word_cons c w :
  is_space c = false → is_word w → is_word (String c w).
Proof.
  intros Hc [_ Hw]. split; [done|]. simpl. by constructor.
Qed.

Lemma is_word_single c : is_space c = false → is_word (String c EmptyString).
Proof. intros Hc. split; [done|]. simpl. by repeat constructor. Qed.

Lemma py_split_words s : Forall is_word (py_split s).
Proof.
  induction s as [|c s IH]; [constructor|].
  rewrite py_split_cons. destruct (is_space c) eqn:Hc; [done|].
  destruct s as [|c' s']; [by apply Forall_singleton, is_word_single|].
  destruct (is_space c').
  { apply Forall_cons. split; [by apply is_word_single|done]. }
  destruct (py_split (String c' s')) as [|w ws].
  - by apply Forall_singleton, is_word_single.
  - apply Forall_cons in IH as [Hw Hws].
    apply Forall_cons. split; [by apply is_word_cons|done].
Qed.

Lemma py_split_word_then_space w x t :
  is_word w → is_space x = true →
  py_split (w +:+ String x t) = w :: py_split t.
Proof.
  intros [Hne Hw] Hx. induction w as [|c w IH]; [done|].
  simpl in Hw. apply Forall_cons in Hw as [Hc Hw].
  rewrite TemplatesProps.append_cons, py_split_cons, Hc.
  destruct w as [|c' w'].
  - rewrite TemplatesProps.append_empty, Hx.
    by rewrite (py_split_cons x t), Hx.
  - rewrite TemplatesProps.append_cons.
    simpl in Hw. pose proof Hw as [Hc' _]%Forall_cons. rewrite Hc'.
    rewrite <- TemplatesProps.append_cons, IH; done.
Qed.

Lemma py_split_word w : is_word w → py_split w = [w].
Proof.
  intros [Hne Hw]. induction w as [|c w IH]; [done|].
  simpl in Hw. apply Forall_cons in Hw as [Hc Hw].
  rewrite py_split_cons, Hc. destruct w as [|c' w']; [done|].
  simpl in Hw. pose proof Hw as [Hc' _]%Forall_cons. rewrite Hc'.
  rewrite IH; done.
Qed.

Lemma py_split_join ws :
  is_space " " = true → Forall is_word ws →
  py_split (py_join " " ws) = ws.
Proof.
  intros Hsp. induction 1 as [|w ws Hw Hws IH]; [done|].
  destruct ws as [|w' ws'].
  - simpl. by apply py_split_word.
  - change (py_join " " (w :: w' :: ws'))
      with (w +:+ String " " (py_join " " (w' :: ws')))%string.
    rewrite py_split_word_then_space by done. by rewrite IH.
Qed.

(** X10: Normalizing the whitespace of a statement keeps its words (the
    maximal runs without whitespace), each of them non-empty and free of
    whitespace, and normalizing twice changes nothing more. *)
Theorem normalize_sql_idempotent (sql : string) :
  is_space " " = true →
  py_split (normalize_sql sql) = py_split sql
  ∧ normalize_sql (normalize_sql sql) = normalize_sql sql
  ∧ Forall is_word (py_split sql).
Proof.
  intros Hsp.
  assert (Hsplit : py_split (normalize_sql sql) = py_split sql).
  { unfold Templates.normalize_sql. apply py_split_join; [done|].
    apply py_split_words. }
  split; [done|]. split; [|apply py_split_words].
  unfold Templates.normalize_sql at 1. by rewrite Hsplit.
Qed.
End Props.

Lemma normalize_sql_idempotent_witness :
  normalize_sql ascii_space
    (normalize_sql ascii_space "  select  id
 from   users ") = "select id from users".
Proof.
  destruct (normalize_sql_idempotent ascii_space "  select  id
 from   users " eq_refl) as (_ & Hidem & _).
  rewrite Hidem. vm_compute. reflexivity.
Defined.

End NormalizeProps.

(** ** Sequences of removes and updates *)

Module SessionsProps.
Import Py Schema Storage Sessions.

Section Props.
Context {Criteria Sort Params Answer : Type}.
Variable respond : Call Criteria Sort Params → Answer.

Local Abbreviation World := (World Criteria Sort Params).

Lemma hasattr_setattr e k' v k :
  hasattr e k' = true → hasattr (setattr e k' v) k = hasattr e k.
Proof.
  intros Hk'. apply StorageProps.hasattr_true in Hk'. unfold hasattr, setattr.
  simpl. apply bool_decide_ext. destruct (decide (k' = k)) as [->|Hne].
  - rewrite lookup_insert_eq. split; [done|]. by eexists.
  - by rewrite lookup_insert_ne.
Qed.

(** X12: [remove] and [update] neither add nor drop an attribute of the
    entity, and leave its class as it is. *)
Theorem remove_update_keep_attribute_names
    (entity : Entity) (force : bool) (w : World) (k : string) :
  hasattr (remove respond entity force w).1 k = hasattr entity k
  ∧ hasattr (update respond entity w).1 k = hasattr entity k
  ∧ e_class (remove respond entity force w).1 = e_class entity
  ∧ e_class (update respond entity w).1 = e_class entity.
Proof.
  rewrite StorageProps.remove_unfold, StorageProps.update_unfold.
  destruct (hasattr entity "deleted_on") eqn:Hd,
    (hasattr entity "updated_on") eqn:Hu, force; simpl;
    rewrite ?hasattr_setattr by done; done.
Qed.

Lemma run_no_hard_delete ops : ∀ entity (w : World),
  hasattr entity "deleted_on" = true →
  Forall (λ o, o ≠ OpRemove true) ops →
  ∃ cs, trace (run respond ops entity w).2 = trace w ++ cs
        ∧ Forall (λ c, is_hard_delete c = false) cs
        ∧ hasattr (run respond ops entity w).1 "deleted_on" = true.
Proof.
  induction ops as [|o ops IH]; intros entity w Hattr Hops.
  { exists []. simpl. by rewrite app_nil_r. }
  apply Forall_cons in Hops as [Ho Hops].
  destruct o as [[]|]; [done| |]; simpl; unfold bind.
  - pose proof (StorageProps.remove_unfold respond entity false w) as Hrm.
    rewrite Hattr in Hrm. simpl in Hrm. rewrite Hrm.
    destruct (IH (setattr entity "deleted_on" (VTime (clock w)))
                (logged w [CEnsureConnected;
                           CUpdate (setattr entity "deleted_on"
                                            (VTime (clock w)))]))
      as (cs & Htr & Hcs & Hkeep); [by rewrite hasattr_setattr|done|].
    eexists. split; [|split; [|exact Hkeep]].
    + rewrite Htr. simpl. by rewrite <- app_assoc.
    + by repeat constructor.
  - pose proof (StorageProps.update_unfold respond entity w) as Hup.
    simpl in Hup. rewrite Hup.
    set (e' := if hasattr entity "updated_on"
               then setattr entity "updated_on" (VTime (clock w))
               else entity).
    destruct (IH e' (logged w [CEnsureConnected; CUpdate e']))
      as (cs & Htr & Hcs & Hkeep); [|done|].
    { unfold e'. destruct (hasattr entity "updated_on") eqn:Hu; [|done].
      by rewrite hasattr_setattr. }
    eexists. split; [|split; [|exact Hkeep]].
    + rewrite Htr. simpl. by rewrite <- app_assoc.
    + by repeat constructor.
Qed.

(** X13: An entity that has a ['deleted_on'] attribute is never handed to
    [_remove] by any sequence of updates and unforced removes, and it
    still has the attribute afterwards. *)
Theorem soft_deletable_never_hard_deleted
    (ops : list Op) (entity : Entity) (now : Z) :
  hasattr entity "deleted_on" = true →
  Forall (λ o, o ≠ OpRemove true) ops →
  Forall (λ c, is_hard_delete c = false) (calls_of (run respond ops entity) now)
  ∧ hasattr (run respond ops entity (mkWorld now [])).1 "deleted_on" = true.
Proof.
  intros Hattr Hops. unfold calls_of.
  destruct (run_no_hard_delete ops entity (mkWorld now []) Hattr Hops)
    as (cs & Htr & Hcs & Hkeep).
  rewrite Htr. simpl. done.
Qed.
End Props.

Lemma soft_deletable_never_hard_deleted_witness :
  Forall (λ c, is_hard_delete c = false)
         (calls_of (Criteria:=unit) (Sort:=unit) (Params:=unit)
                   (run (λ _, tt) [OpRemove false; OpUpdate; OpRemove false]
                        Samples.tracked_user) 1700000000).
Proof.
  apply (soft_deletable_never_hard_deleted (λ _, tt)
           [OpRemove false; OpUpdate; OpRemove false]
           Samples.tracked_user 1700000000).
  - reflexivity.
  - repeat constructor; discriminate.
Defined.

End SessionsProps.

(** ** Event equality, in full *)

Module CandidatesProps.
Import Py Messaging Candidates.

Lemma first_component_no_dot s : full_stop ∉ Selection.chars (first_component s).
Proof.
  unfold Selection.chars, full_stop. induction s as [|c s IH]; simpl.
  - apply not_elem_of_nil.
  - destruct (Ascii.eqb_spec c "."); simpl; [apply not_elem_of_nil|].
    apply not_elem_of_cons. split; [congruence|done].
Qed.

Lemma first_component_app a b :
  full_stop ∉ Selection.chars a →
  first_component (a +:+ String "." b) = a.
Proof.
  unfold Selection.chars, full_stop. induction a as [|c a IH]; intros Ha.
  - reflexivity.
  - simpl in Ha. apply not_elem_of_cons in Ha as [Hc Ha].
    rewrite TemplatesProps.append_cons. simpl.
    destruct (Ascii.eqb_spec c "."); [congruence|]. by rewrite IH.
Qed.

(** X15: An event as its constructor leaves it: its source context is the
    part of its class's module before the first full stop; its string
    form is that context, a full stop and the class name, so that the
    context can be read back from the string form; and running
    [__post_init__] again changes nothing. *)
Theorem post_init_string_form (e : Event) :
  let e' := __post_init__ e in
  let ctx := first_component (__module__ (__class__ e)) in
  source_context e' = Some ctx
  ∧ (full_stop ∉ Selection.chars ctx)
  ∧ __str__ e' = (ctx +:+ "." +:+ __name__ (__class__ e))%string
  ∧ first_component (__str__ e') = ctx
  ∧ __post_init__ e' = e'.
Proof.
  simpl. repeat split.
  - apply first_component_no_dot.
  - unfold __str__. simpl.
    apply (first_component_app _ (__name__ (__class__ e))).
    apply first_component_no_dot.
Qed.

Section Props.
Variable instance_check : Class → Class → Result bool.

Local Abbreviation isinstance := (isinstance instance_check).
Local Abbreviation eq_operator := (eq_operator instance_check).

Lemma scan_app one l1 l2 :
  scan one (l1 ++ l2) =
  match scan one l1 with
  | Ok false => scan one l2
  | r => r
  end.
Proof.
  induction l1 as [|x l1 IH]; [done|]. simpl.
  by destruct (one x) as [[]|].
Qed.

(** [isinstance(self, other)] reads the values of a nested tuple from
    left to right and stops at the first that answers [True] or
    raises. *)
Lemma isinstance_scans_leaves (self : Event) :
  ∀ other, isinstance self other = scan (isinstance self) (leaves other).
Proof.
  fix IH 1. intros [| | |T|items|check refl].
  1-3: reflexivity.
  { simpl. destruct (bool_decide (T = __class__ self)); [done|].
    by destruct (instance_check (__class__ self) T) as [[]|]. }
  2:{ destruct check as [check|]; simpl; [|done].
      by destruct (check self) as [[]|]. }
  change (leaves (OTuple items)) with
    ((fix go (l : list PyObj) : list PyObj :=
        match l with
        | [] => []
        | x :: l' => leaves x ++ go l'
        end) items).
  simpl. induction items as [|x items IHitems]; [reflexivity|].
  rewrite scan_app, <- (IH x).
  destruct (Messaging.isinstance instance_check self x) as [[]|];
    try reflexivity.
  exact IHitems.
Qed.

(** X14: For an event whose class takes [__eq__] from [Event], a
    comparison is [True] when the other value is the event's string
    form. Otherwise the instance check decides, reading the values of a
    (nested) tuple from left to right up to the first that answers
    [True] or raises: the comparison is [True] if that check answers
    [True], [False] if it answers [False] or raises [TypeError], and
    raises whatever else the check raises. *)
Theorem event_eq_characterized (self : Event) (other : PyObj) :
  dataclass_eq (__class__ self) = false →
  eq_operator self other =
  if equals_str other (__str__ self) then Ok true
  else match scan (isinstance self) (leaves other) with
       | Raise TypeError => Ok false
       | r => r
       end.
Proof.
  intros Hown. unfold Messaging.eq_operator, __eq__. rewrite Hown.
  rewrite <- isinstance_scans_leaves.
  assert (Hstr : is_str other && equals_str other (__str__ self) =
                 equals_str other (__str__ self)) by (by destruct other).
  by rewrite Hstr.
Qed.

End Props.

Lemma event_eq_characterized_witness :
  eq_operator Samples.flat_hierarchy Samples.user_created_event
    (OTuple [OType Samples.contexts_loaded;
             OTuple [Samples.user_created_or_int]; OInt 3]) = Ok true
  ∧ eq_operator Samples.flat_hierarchy Samples.user_created_event
      (OTuple [OType Samples.contexts_loaded; OInt 3;
               OType Samples.user_created]) = Ok false
  ∧ eq_operator Samples.flat_hierarchy Samples.user_created_event
      (OTuple [Samples.failing_checker; OType Samples.user_created]) =
    Raise KeyError.
Proof.
  split; [|split];
    rewrite (event_eq_characterized Samples.flat_hierarchy
               Samples.user_created_event _ eq_refl);
    reflexivity.
Defined.


End CandidatesProps.

(** ** The query service: lookups, bounds and failures *)

Module QueryMoreProps.
Import Py Query.

Lemma py_slice_length {A} (xs : list A) (a b : Z) :
  a ≤ b → (length (py_slice xs a b) ≤ Z.to_nat (b - a))%nat.
Proof.
  intros Hab. unfold py_slice. rewrite length_take, length_drop.
  destruct (Z.ltb_spec a 0), (Z.ltb_spec b 0); lia.
Qed.

Lemma py_slice_sublist {A} (xs : list A) (a b : Z) :
  py_slice xs a b `sublist_of` xs.
Proof.
  unfold py_slice. etrans; [apply sublist_take | apply sublist_drop].
Qed.

Lemma py_slice_past_end {A} (xs : list A) (a b : Z) :
  Z.of_nat (length xs) ≤ a → py_slice xs a b = [].
Proof.
  intros Ha. unfold py_slice.
  destruct (Z.ltb_spec a 0) as [?|_]; [lia|].
  rewrite drop_ge by lia. by rewrite take_nil.
Qed.

Section Props.
Context {Entity IdVal Dict BinaryOp SortSpec : Type}.
Context `{EqDecision IdVal}.
Variable id_name : string.
Variable id_value : Entity → IdVal.
Variable deserialize : string → Result Dict.
Variable from_dict : Dict → Result BinaryOp.
Variable satisfies : BinaryOp → Entity → bool.
Variable sorted : SortSpec → list Entity → list Entity.

Local Abbreviation call :=
  (__call__ id_name id_value deserialize from_dict satisfies sorted).
Local Abbreviation criteria_of := (criteria_of deserialize from_dict).
Local Abbreviation matching := (matching satisfies).
Local Abbreviation ordered := (ordered sorted).

(** X16: When the identifier is among the keyword arguments, the other
    arguments play no part, not even criteria that cannot be decoded:
    the call does what a call with the identifier alone does, and it
    returns neither a plain sequence nor an Envelope. *)
Theorem identifier_lookup_takes_precedence
    (store : list Entity) (kwargs : Kwargs IdVal Dict SortSpec) (v : IdVal) :
  kw_id kwargs = Some v →
  call store kwargs = call store (mkKwargs (Some v) None None None None)
  ∧ (∀ l, call store kwargs ≠ Ok (Sequence l))
  ∧ (∀ env, call store kwargs ≠ Ok (Paginated env)).
Proof.
  intros Hid. unfold __call__. rewrite Hid. simpl.
  split; [done|].
  split; intros x; destruct (r_find _ _ _) as [?|[]]; discriminate.
Qed.

(** X17: A paginated call with a non-negative limit returns at most [limit]
    items, taken without reordering from the sorted matching entities,
    and none when the offset is past their end; the Envelope carries
    the offset and the limit it was called with. *)
Theorem paginated_items_bounded
    (store : list Entity) (kwargs : Kwargs IdVal Dict SortSpec)
    (l o : Z) (c : option BinaryOp) :
  kw_id kwargs = None →
  kw_limit kwargs = Some (Some l) →
  kw_offset kwargs = Some (Some o) →
  criteria_of kwargs = Ok c →
  0 ≤ l →
  ∃ env,
    call store kwargs = Ok (Paginated env)
    ∧ (length (items env) ≤ Z.to_nat l)%nat
    ∧ items env `sublist_of` ordered (kw_sort kwargs) (matching c store)
    ∧ env_offset env = Some o
    ∧ env_limit env = Some l
    ∧ (Z.of_nat (length (ordered (kw_sort kwargs) (matching c store))) ≤ o →
       items env = []).
Proof.
  intros Hid Hl Ho Hc Hlim. eexists.
  split; [by apply QueryProps.__call__paginated|]. simpl.
  split; [|split; [apply py_slice_sublist|]].
  - etrans; [apply py_slice_length; lia|]. lia.
  - repeat split. apply py_slice_past_end.
Qed.

(** X18: Without the identifier, criteria that cannot be decoded make the
    call raise the decoder's exception, whatever limit, offset and sort
    are; and criteria given as a serialized string are treated exactly
    as the mapping the string deserializes to. *)
Theorem undecodable_criteria_raise
    (store : list Entity) (kwargs : Kwargs IdVal Dict SortSpec) :
  kw_id kwargs = None →
  (∀ e, criteria_of kwargs = Raise e → call store kwargs = Raise e)
  ∧ (∀ s d, kw_criteria kwargs = Some (Serialized s) →
            deserialize s = Ok d →
            call store kwargs =
            call store (mkKwargs None (kw_limit kwargs) (kw_offset kwargs)
                                 (Some (Mapping d)) (kw_sort kwargs))).
Proof.
  intros Hid. split.
  - intros e He. unfold __call__. rewrite Hid, He.
    by destruct (kw_limit kwargs) as [[l|]|], (kw_offset kwargs) as [[o|]|].
  - intros s d Hs Hd. unfold __call__, Query.criteria_of, apply_sort.
    rewrite Hid, Hs. simpl. by rewrite Hd.
Qed.
End Props.

Lemma identifier_lookup_takes_precedence_witness :
  Samples.query_users Samples.users
    (mkKwargs (Some 2) (Some (Some 1)) (Some (Some 0))
              (Some (Serialized "{")) (Some true)) = Ok (Found 2).
Proof.
  destruct (identifier_lookup_takes_precedence "id" (λ e, e)
              (λ _, Raise DeserializationError) (λ d, Ok d)
              (λ bound e, e <? bound) Samples.sort_users Samples.users
              (mkKwargs (Some 2) (Some (Some 1)) (Some (Some 0))
                        (Some (Serialized "{")) (Some true)) 2 eq_refl)
    as [Hsame _].
  unfold Samples.query_users. rewrite Hsame. reflexivity.
Defined.

Lemma paginated_items_bounded_witness :
  ∃ env,
    Samples.query_users Samples.users Samples.second_page_descending =
      Ok (Paginated env)
    ∧ (length (items env) ≤ 2)%nat.
Proof.
  destruct (paginated_items_bounded "id" (λ e, e)
              (λ _, Raise DeserializationError) (λ d, Ok d)
              (λ bound e, e <? bound) Samples.sort_users
              Samples.users Samples.second_page_descending 2 1 None
              eq_refl eq_refl eq_refl eq_refl)
    as (env & Hcall & Hlen & _); [lia|].
  exists env. split; [exact Hcall | exact Hlen].
Defined.

Lemma undecodable_criteria_raise_witness :
  Samples.query_users Samples.users
    (mkKwargs None (Some (Some 1)) (Some (Some 0))
              (Some (Serialized "{")) (Some true)) =
  Raise DeserializationError.
Proof.
  destruct (undecodable_criteria_raise "id" (λ e, e)
              (λ _, Raise DeserializationError) (λ d, Ok d)
              (λ bound e, e <? bound) Samples.sort_users Samples.users
              (mkKwargs None (Some (Some 1)) (Some (Some 0))
                        (Some (Serialized "{")) (Some true)) eq_refl)
    as [Hraise _].
  apply Hraise. reflexivity.
Defined.

End QueryMoreProps.

(** ** The generic update handler *)

Module CrudProps.
Import Py Schema Storage Crud.

Lemma assign_class entity kv : e_class (assign entity kv) = e_class entity.
Proof. unfold assign. by destruct (hasattr entity kv.1). Qed.

Lemma assign_hasattr entity kv k :
  hasattr (assign entity kv) k = hasattr entity k.
Proof.
  unfold assign. destruct (hasattr entity kv.1) eqn:Hk; [|done].
  by apply SessionsProps.hasattr_setattr.
Qed.

Lemma assign_other entity kv k :
  k ≠ kv.1 → e_attrs (assign entity kv) !! k = e_attrs entity !! k.
Proof.
  intros Hne. unfold assign. destruct (hasattr entity kv.1); [|done].
  simpl. by rewrite lookup_insert_ne.
Qed.

Lemma assign_all_class kwargs : ∀ entity,
  e_class (fold_left assign kwargs entity) = e_class entity.
Proof.
  induction kwargs as [|kv kwargs IH]; intros entity; simpl; [done|].
  by rewrite IH, assign_class.
Qed.

Lemma assign_all_hasattr kwargs k : ∀ entity,
  hasattr (fold_left assign kwargs entity) k = hasattr entity k.
Proof.
  induction kwargs as [|kv kwargs IH]; intros entity; simpl; [done|].
  by rewrite IH, assign_hasattr.
Qed.

Lemma assign_all_other kwargs k : ∀ entity,
  k ∉ kwargs.*1 →
  e_attrs (fold_left assign kwargs entity) !! k = e_attrs entity !! k.
Proof.
  induction kwargs as [|kv kwargs IH]; intros entity Hk; simpl; [done|].
  rewrite fmap_cons in Hk. apply not_elem_of_cons in Hk as [Hne Hk].
  by rewrite IH, assign_other.
Qed.

Lemma assign_all_given kwargs k v : ∀ entity,
  NoDup kwargs.*1 → (k, v) ∈ kwargs → hasattr entity k = true →
  e_attrs (fold_left assign kwargs entity) !! k = Some v.
Proof.
  induction kwargs as [|kv kwargs IH]; intros entity Hnd Hin Hattr.
  { by apply elem_of_nil in Hin. }
  rewrite fmap_cons in Hnd. apply NoDup_cons in Hnd as [Hfresh Hnd].
  simpl. apply elem_of_cons in Hin as [<-|Hin].
  - rewrite assign_all_other by done.
    unfold assign. simpl. rewrite Hattr. simpl. apply lookup_insert_eq.
  - apply IH; [done|done|]. by rewrite assign_hasattr.
Qed.

Section Props.
Context {Ev : Type}.
Variable type_ : EntityType.
Variable match_id_from_argument_list :
  EntityType → list (string * Value) → Outcome (list (string * Value)).
Variable find : Value → Outcome Entity.
Variable update : Entity → Outcome unit.
Variable dispatch : Ev → Outcome unit.
Variable _build_event : EntityType → string → Ev.

Local Abbreviation call :=
  (__call__ type_ match_id_from_argument_list find update dispatch
            _build_event).

(** X19: When the update handler returns, it returns the entity it found
    with exactly the attributes it had: an attribute not named in the
    arguments keeps its value, an attribute named in the arguments takes
    the argument's value, and an argument that names no attribute of the
    entity is ignored. The entity was handed to the repository's
    [update] and then the update event was dispatched. *)
Theorem update_entity_assigns_existing
    (kwargs : list (string * Value)) (e' : Entity) (effects : list (Effect Ev)) :
  call kwargs = (Returns e', effects) →
  ∃ id entity,
    find id = Returns entity
    ∧ effects = [EFind id; EUpdate e'; EDispatch (_build_event type_ "update")]
    ∧ e_class e' = e_class entity
    ∧ (∀ k, hasattr e' k = hasattr entity k)
    ∧ (∀ k, k ∉ kwargs.*1 → e_attrs e' !! k = e_attrs entity !! k)
    ∧ (NoDup kwargs.*1 →
       ∀ k v, (k, v) ∈ kwargs → hasattr entity k = true →
              e_attrs e' !! k = Some v).
Proof.
  unfold __call__. intros Hcall.
  destruct (match_id_from_argument_list type_ kwargs) as [id_arg|];
    [|discriminate Hcall].
  destruct (last id_arg.*2) as [id|]; [|discriminate Hcall].
  destruct (find id) as [entity|] eqn:Hfind; [|discriminate Hcall].
  destruct (update _) as [[]|]; [|discriminate Hcall].
  destruct (dispatch _) as [[]|]; [|discriminate Hcall].
  injection Hcall as <- <-.
  exists id, entity. split; [done|]. split; [done|].
  split; [apply assign_all_class|]. split; [intros k; apply assign_all_hasattr|].
  split; [intros k; apply assign_all_other|].
  intros Hnd k v. by apply assign_all_given.
Qed.

(** X20: Whatever the outcome, the handler calls the repository's [update]
    only on an entity [find] returned (with the arguments assigned), and
    dispatches an event only after [update] returned. *)
Theorem update_entity_effects_in_order
    (kwargs : list (string * Value)) (r : Outcome Entity)
    (effects : list (Effect Ev)) :
  call kwargs = (r, effects) →
  (∀ entity, EUpdate entity ∈ effects →
     ∃ id found, effects !! 0%nat = Some (EFind id)
                 ∧ find id = Returns found
                 ∧ entity = fold_left assign kwargs found)
  ∧ (∀ event, EDispatch event ∈ effects →
       ∃ entity, effects !! 1%nat = Some (EUpdate entity)
                 ∧ update entity = Returns tt).
Proof.
  unfold __call__. intros Hcall.
  destruct (match_id_from_argument_list type_ kwargs) as [id_arg|].
  2:{ injection Hcall as <- <-. split; intros x Hx; by apply elem_of_nil in Hx. }
  destruct (last id_arg.*2) as [id|].
  2:{ injection Hcall as <- <-. split; intros x Hx; by apply elem_of_nil in Hx. }
  destruct (find id) as [found|] eqn:Hfind.
  2:{ injection Hcall as <- <-. split; intros x Hx;
        apply list_elem_of_singleton in Hx; discriminate Hx. }
  destruct (update _) as [[]|] eqn:Hupd.
  2:{ injection Hcall as <- <-. split; intros x Hx.
      - apply elem_of_cons in Hx as [Hx|Hx]; [discriminate Hx|].
        apply list_elem_of_singleton in Hx. injection Hx as ->. eauto.
      - apply elem_of_cons in Hx as [Hx|Hx]; [discriminate Hx|].
        apply list_elem_of_singleton in Hx. discriminate Hx. }
  assert (Hshape : effects =
    [EFind id; EUpdate (fold_left assign kwargs found);
     EDispatch (_build_event type_ "update")]).
  { by destruct (dispatch _); injection Hcall as <- <-. }
  subst effects. split.
  - intros entity Hx.
    apply elem_of_cons in Hx as [Hx|Hx]; [discriminate Hx|].
    apply elem_of_cons in Hx as [Hx|Hx].
    + injection Hx as ->. eauto.
    + apply list_elem_of_singleton in Hx. discriminate Hx.
  - intros event _. eauto.
Qed.
End Props.

Lemma update_entity_assigns_existing_witness :
  ∃ e', rename_stored_user.1 = Returns e'
        ∧ e_attrs e' !! "name" = Some (VStr "baz")
        ∧ e_attrs e' !! "nickname" = None.
Proof.
  destruct (update_entity_assigns_existing Samples.user
              (λ _ kw, Returns (List.filter (λ kv, String.eqb kv.1 "id") kw))
              (λ _, Returns stored_user) (λ _, Returns tt) (λ _, Returns tt)
              (λ t op, (fqn t +:+ "." +:+ op)%string) rename_request
              (fold_left assign rename_request stored_user)
              [EFind (VInt 7);
               EUpdate (fold_left assign rename_request stored_user);
               EDispatch "iam.User.update"] eq_refl)
    as (id & entity & Hfind & _ & _ & Hattrs & _ & Hgiven).
  injection Hfind as <-.
  exists (fold_left assign rename_request stored_user).
  split; [reflexivity|]. split.
  - apply Hgiven; [apply (bool_decide_unpack _); vm_compute; exact I| |reflexivity].
    vm_compute. right. left.
  - specialize (Hattrs "nickname").
    apply StorageProps.hasattr_false. rewrite Hattrs. reflexivity.
Defined.

Lemma update_entity_effects_in_order_witness :
  ∃ entity, rename_stored_user.2 !! 1%nat = Some (EUpdate entity).
Proof.
  destruct (update_entity_effects_in_order Samples.user
              (λ _ kw, Returns (List.filter (λ kv, String.eqb kv.1 "id") kw))
              (λ _, Returns stored_user) (λ _, Returns tt) (λ _, Returns tt)
              (λ t op, (fqn t +:+ "." +:+ op)%string) rename_request
              rename_stored_user.1 rename_stored_user.2 eq_refl)
    as [_ Hdispatch].
  destruct (Hdispatch "iam.User.update") as (entity & Hupd & _).
  - vm_compute. do 2 right. left.
  - by exists entity.
Defined.

End CrudProps.

(** ** The cache of service instances *)

Module ExtProps.
Import Py Ext.

Section Props.
Context {Cls Inst : Type} `{Countable Cls}.
Variable build : nat → Cls → Result Inst.

Local Abbreviation service_instance := (service_instance build).
Local Abbreviation after := (after build).

Lemma service_instance_hit cls i (st : State Cls Inst) :
  _service_instances st !! cls = Some i →
  service_instance cls st = (Ok (inl i), st).
Proof. intros Hc. unfold Ext.service_instance. by rewrite Hc. Qed.

Lemma service_instance_keeps c i cls (st : State Cls Inst) :
  _service_instances st !! c = Some i →
  _service_instances (service_instance cls st).2 !! c = Some i.
Proof.
  intros Hc. unfold Ext.service_instance.
  destruct (_service_instances st !! cls) as [j|] eqn:Hcls; [done|].
  destruct (build _ cls) as [j|[]]; simpl; try done.
  rewrite lookup_insert_ne; [done|]. congruence.
Qed.

Lemma after_keeps c i cs : ∀ st : State Cls Inst,
  _service_instances st !! c = Some i →
  _service_instances (after cs st) !! c = Some i.
Proof.
  induction cs as [|cls cs IH]; intros st Hc; [done|].
  simpl. by apply IH, service_instance_keeps.
Qed.

Lemma service_instance_caches cls i (st : State Cls Inst) :
  (service_instance cls st).1 = Ok (inl i) →
  _service_instances (service_instance cls st).2 !! cls = Some i.
Proof.
  unfold Ext.service_instance.
  destruct (_service_instances st !! cls) as [j|] eqn:Hcls.
  { simpl. by intros [= <-]. }
  destruct (build _ cls) as [j|[]]; simpl; try discriminate.
  intros [= <-]. apply lookup_insert_eq.
Qed.

(** X21: Once [service_instance] has returned an instance for a class, it
    returns that same instance for the class ever after, whatever other
    classes are asked for in between, and does not ask the container to
    build the class again. *)
Theorem service_instance_is_cached
    (cls : Cls) (i : Inst) (st : State Cls Inst) (cs : list Cls) :
  (service_instance cls st).1 = Ok (inl i) →
  let st' := after cs (service_instance cls st).2 in
  service_instance cls st' = (Ok (inl i), st').
Proof.
  intros Hi. simpl. apply service_instance_hit, after_keeps.
  by apply service_instance_caches.
Qed.

(** X22: A class the container cannot build ([TypeError]) is returned as it
    is and not remembered: the cache is unchanged, so the next call asks
    the container again. *)
Theorem unbuildable_class_is_not_cached (cls : Cls) (st : State Cls Inst) :
  _service_instances st !! cls = None →
  build (length (builds st)) cls = Raise TypeError →
  (service_instance cls st).1 = Ok (inr cls)
  ∧ _service_instances (service_instance cls st).2 = _service_instances st
  ∧ builds (service_instance cls st).2 = builds st ++ [cls]
  ∧ builds (service_instance cls (service_instance cls st).2).2 =
      builds st ++ [cls; cls].
Proof.
  intros Hmiss Hbuild.
  assert (Hfirst : service_instance cls st =
            (Ok (inr cls),
             mkState (_service_instances st) (builds st ++ [cls]))).
  { unfold Ext.service_instance. by rewrite Hmiss, Hbuild. }
  rewrite Hfirst. simpl. repeat split.
  unfold Ext.service_instance. simpl. rewrite Hmiss.
  destruct (build (length (builds st ++ [cls])) cls) as [j|[]]; simpl;
    by rewrite <- app_assoc.
Qed.
End Props.

Lemma service_instance_is_cached_witness :
  let build := λ (n : nat) (cls : string),
    if String.eqb cls "Middleware" then Raise TypeError else Ok (cls, n) in
  let st' := after build ["Middleware"; "Deploy"]
               (service_instance build "Deploy" (mkState ∅ [])).2 in
  service_instance build "Deploy" st' = (Ok (inl ("Deploy", 0%nat)), st').
Proof.
  intros build st'.
  apply (service_instance_is_cached build "Deploy" ("Deploy", 0%nat)
           (mkState ∅ []) ["Middleware"; "Deploy"]).
  reflexivity.
Defined.

Lemma unbuildable_class_is_not_cached_witness :
  let build := λ (n : nat) (cls : string),
    if String.eqb cls "Middleware" then Raise TypeError else Ok (cls, n) in
  (service_instance build "Middleware" (mkState ∅ [])).1 =
    Ok (inr "Middleware").
Proof.
  intros build.
  apply (unbuildable_class_is_not_cached build "Middleware" (mkState ∅ []));
    reflexivity.
Defined.

End ExtProps.

(** ** Merging a named index into an existing one *)

Module IndexMergeProps.
Import Py Schema Selection.

Section Props.
Variable tableize : string → string.
Variable default_name : string → list string → bool → option string.
Variable truthy : Index → bool.

(** X23: When a field whose index metadata is [True] yields an Index that
    the Index class names [n], a following field tagged with the index
    name [n] is merged into it: one Index results, with both field names
    as columns in declaration order, unique when either field is tagged
    unique. *)
Theorem get_entity_indexes_merges_into_named
    (type_name n : string) (g f : Field) :
  let table := replace_dots (tableize type_name) in
  f_metadata g !! "index" = Some (MBool true) →
  f_metadata f !! "index" = Some (MStr n) →
  default_name table [f_name g] (unique_is_true g) = Some n →
  truthy (new_index default_name table g) = true →
  get_entity_indexes tableize default_name truthy
                     (mkEntityType type_name [g; f]) =
  Ok [mkIndex (Some n) table [f_name g; f_name f]
              (unique_is_true g || unique_is_true f)].
Proof.
  intros table Hg Hf Hname Htruthy. subst table.
  unfold get_entity_indexes, _fqtn. simpl. rewrite Hg, Hf. simpl.
  rewrite decide_True by (by unfold new_index; simpl; rewrite Hname).
  simpl. rewrite Htruthy. simpl. unfold merge_into, new_index. simpl.
  rewrite Hname. by destruct (unique_is_true g), (unique_is_true f).
Qed.
End Props.

Lemma get_entity_indexes_merges_into_named_witness :
  get_entity_indexes (λ s, s) (λ _ _ _, Some "idx_name_email") (λ _, true)
                     (mkEntityType "iam.Contact"
                                   [account_name; Samples.email_field]) =
  Ok [mkIndex (Some "idx_name_email") "iam_Contact" ["name"; "email"] true].
Proof.
  apply (get_entity_indexes_merges_into_named (λ s, s)
           (λ _ _ _, Some "idx_name_email") (λ _, true)
           "iam.Contact" "idx_name_email" account_name Samples.email_field);
    reflexivity.
Defined.

End IndexMergeProps.

(** ** The calls of the CRUD operations *)

Module CrudCallsProps.
Import Py Schema Storage.

Section Props.
Context {Criteria Sort Params Answer : Type}.
Variable respond : Call Criteria Sort Params → Answer.

(** X11: [add], [all], [find], [remove] and [update] each make exactly two
    calls to the backend: [_ensure_connected] first, then their own
    primitive ([_update] or [_remove] for [remove]), once. *)
Theorem crud_operations_connect_then_act
    (now : Z) (entity : Entity) (force : bool) (uuid : string)
    (entity_type : EntityType) (criteria : option Criteria)
    (limit offset : option Z) (sort : option Sort) (raw count : bool) :
  calls_of (add respond entity) now = [CEnsureConnected; CAdd entity]
  ∧ calls_of (all respond entity_type criteria limit offset sort raw count) now
    = [CEnsureConnected; CAll entity_type criteria limit offset sort raw count]
  ∧ calls_of (find respond uuid entity_type) now
    = [CEnsureConnected; CFind uuid entity_type]
  ∧ (∃ c, calls_of (remove respond entity force) now = [CEnsureConnected; c]
          ∧ (c = CRemove entity
             ∨ c = CUpdate (setattr entity "deleted_on" (VTime now))))
  ∧ (∃ e', calls_of (update respond entity) now = [CEnsureConnected; CUpdate e']).
Proof.
  split; [reflexivity|]. split; [reflexivity|]. split; [reflexivity|].
  unfold calls_of. rewrite StorageProps.remove_unfold, StorageProps.update_unfold.
  split.
  - destruct (hasattr entity "deleted_on" && negb force); eexists; eauto.
  - eexists. reflexivity.
Qed.
End Props.

End CrudCallsProps.
